(** * GTOC assistant: corpus index, query routing and score-gated synthesis

    A shallow embedding of [ai_response.py] and the verification of its
    specification.

    Text is modelled by [string], a sequence of [ascii] characters, each
    standing for the code point of the same number (0 to 255).  The character
    classes and [lower] are those Python applies to these code points.
    [upper] is Python's too, except on the three characters whose upper case
    is not one code point below 256 (181, 223 and 255), which it leaves as
    they are.  Code points above 255 are outside the model.

    The collaborators of the program are kept outside:
    - [extract_text_from_pdf] is the text recorded with each directory entry;
    - [openai.ChatCompletion.create] is an oracle threaded through the world;
    - [os.makedirs] and the writing of a file are an oracle too, which may
      refuse, and the call then raises [OSError];
    - [os.listdir] enumerates a directory in the order the model lists it.

    The base folder is taken to exist.  The exceptions of the model are a
    failing completion call, a refused file operation and the end of the
    input. *)

From Stdlib Require Import String Ascii List NArith Bool Lia Arith DecimalString
  DecimalN.
Import ListNotations.

Local Open Scope list_scope.
Local Open Scope string_scope.

(** ** Python strings *)

Module Str.

Definition code (c : ascii) : N := N_of_ascii c.

(** [str.isspace] on one character, which is also the class [\s]: TAB..CR,
    FS..US, SPACE, NEL (133) and the no-break space (160). *)
Definition is_space (c : ascii) : bool :=
  let n := code c in
  ((9 <=? n) && (n <=? 13) || (28 <=? n) && (n <=? 32) ||
   (n =? 133) || (n =? 160))%N.

(** [\d] *)
Definition is_digit (c : ascii) : bool :=
  let n := code c in ((48 <=? n) && (n <=? 57))%N.

(** [.] without DOTALL: anything but a line feed. *)
Definition not_newline (c : ascii) : bool :=
  negb (code c =? 10)%N.

(** The capital letters: A..Z and 192..222 but the multiplication sign. *)
Definition lower_char (c : ascii) : ascii :=
  let n := code c in
  if ((65 <=? n) && (n <=? 90) ||
      (192 <=? n) && (n <=? 222) && negb (n =? 215))%N
  then ascii_of_N (n + 32) else c.

(** The small letters: a..z and 224..254 but the division sign. *)
Definition upper_char (c : ascii) : ascii :=
  let n := code c in
  if ((97 <=? n) && (n <=? 122) ||
      (224 <=? n) && (n <=? 254) && negb (n =? 247))%N
  then ascii_of_N (n - 32) else c.

Fixpoint map (f : ascii -> ascii) (s : string) : string :=
  match s with
  | EmptyString => EmptyString
  | String c s' => String (f c) (map f s')
  end.

(** [s.lower()] and [s.upper()] *)
Definition lower : string -> string := map lower_char.
Definition upper : string -> string := map upper_char.

(** [s[:n]] *)
Fixpoint take (n : nat) (s : string) : string :=
  match n, s with
  | S n', String c s' => String c (take n' s')
  | _, _ => EmptyString
  end.

(** [s[n:]] *)
Fixpoint drop (n : nat) (s : string) : string :=
  match n, s with
  | S n', String _ s' => drop n' s'
  | _, _ => s
  end.

(** [s.startswith(p)] *)
Fixpoint startswith (p s : string) : bool :=
  match p, s with
  | EmptyString, _ => true
  | String a p', String b s' => Ascii.eqb a b && startswith p' s'
  | String _ _, EmptyString => false
  end.

(** [s.endswith(suf)]: some tail of [s] is [suf]. *)
Fixpoint endswith (s suf : string) : bool :=
  String.eqb s suf ||
  match s with
  | EmptyString => false
  | String _ s' => endswith s' suf
  end.

(** [p in s] *)
Fixpoint contains (p s : string) : bool :=
  startswith p s ||
  match s with
  | EmptyString => false
  | String _ s' => contains p s'
  end.

(** [s.split(sep, 1)] for a non-empty [sep]: the text before the first
    occurrence and the text after it, or [s] alone. *)
Fixpoint split1 (sep s : string) : list string :=
  if startswith sep s then [EmptyString; drop (String.length sep) s]
  else match s with
       | EmptyString => [EmptyString]
       | String c s' =>
           match split1 sep s' with
           | a :: rest => String c a :: rest
           | [] => []
           end
       end.

(** [parts[i]] where the index is in range. *)
Definition item (parts : list string) (i : nat) : string :=
  nth i parts EmptyString.

Fixpoint lstrip (s : string) : string :=
  match s with
  | String c s' => if is_space c then lstrip s' else s
  | EmptyString => EmptyString
  end.

Fixpoint rstrip (s : string) : string :=
  match s with
  | EmptyString => EmptyString
  | String c s' =>
      match rstrip s' with
      | EmptyString => if is_space c then EmptyString else String c EmptyString
      | r => String c r
      end
  end.

(** [s.strip()] *)
Definition strip (s : string) : string := rstrip (lstrip s).

(** [s.replace(a, b)] for one-character [a] and [b]. *)
Definition replace_char (a b : ascii) : string -> string :=
  map (fun c => if Ascii.eqb c a then b else c).

(** [sep.join(xs)] *)
Fixpoint join (sep : string) (xs : list string) : string :=
  match xs with
  | [] => EmptyString
  | [x] => x
  | x :: rest => x ++ sep ++ join sep rest
  end.

(** [int(s)] on a string of decimal digits.  Integers are unbounded, as in
    Python; the interpreter's optional limit on the length of a decimal
    string (4300 digits unless set otherwise) is not modelled. *)
Fixpoint int_from (acc : N) (s : string) : N :=
  match s with
  | EmptyString => acc
  | String c s' => int_from (10 * acc + (code c - 48))%N s'
  end.

Definition int (s : string) : N := int_from 0 s.

(** [str(n)], the rendering [{n}] of a non-negative integer in an f-string. *)
Definition of_N (n : N) : string := NilZero.string_of_uint (N.to_uint n).

(** The line feed, [\n]. *)
Definition nl : string := String (ascii_of_N 10) EmptyString.

(** Truthiness of a string. *)
Definition nonempty (s : string) : bool :=
  match s with EmptyString => false | _ => true end.

End Str.

(** ** Python dictionaries

    A [dict] keeps its keys in insertion order, and assigning to a key that is
    present replaces the value where it stands.  Iteration order matters to the
    prompts, so a dictionary is an association list without repeated keys. *)

Module Dict.

Definition t (V : Type) := list (string * V).

Definition empty {V} : t V := [].

(** [d.get(k)] *)
Fixpoint get {V} (k : string) (d : t V) : option V :=
  match d with
  | [] => None
  | (k', v) :: d' => if String.eqb k k' then Some v else get k d'
  end.

(** [k in d] *)
Definition mem {V} (k : string) (d : t V) : bool :=
  match get k d with Some _ => true | None => false end.

(** [d[k] = v] *)
Fixpoint set {V} (k : string) (v : V) (d : t V) : t V :=
  match d with
  | [] => [(k, v)]
  | (k', v') :: d' =>
      if String.eqb k k' then (k', v) :: d' else (k', v') :: set k v d'
  end.

Definition keys {V} (d : t V) : list string := List.map fst d.

(** Truthiness of a dictionary. *)
Definition nonempty {V} (d : t V) : bool :=
  match d with [] => false | _ => true end.

End Dict.

(** ** The fragment of [re] the program uses

    A backtracking matcher in continuation-passing style: alternatives are
    tried left to right, [Star] takes as many characters as it can and gives
    them back one at a time, [LazyStar] takes as few as it can.  Repetition is
    over a character class, which is all the source's patterns repeat.  Every
    pattern of the source has exactly one capture group. *)

Module Re.

Inductive regex : Type :=
| Lit (s : string)
| Cls (p : ascii -> bool)
| Seq (a b : regex)
| Alt (a b : regex)
| Star (p : ascii -> bool)
| LazyStar (p : ascii -> bool)
| Group (a : regex).

(** [X+] is [XX*] *)
Definition Plus (p : ascii -> bool) : regex := Seq (Cls p) (Star p).

Section Matcher.

Variable R : Type.

Fixpoint star_greedy (p : ascii -> bool) (s : string)
    (k : string -> option R) : option R :=
  match s with
  | String c s' =>
      if p c then
        match star_greedy p s' k with
        | Some r => Some r
        | None => k s
        end
      else k s
  | EmptyString => k s
  end.

Fixpoint star_lazy (p : ascii -> bool) (s : string)
    (k : string -> option R) : option R :=
  match k s with
  | Some r => Some r
  | None =>
      match s with
      | String c s' => if p c then star_lazy p s' k else None
      | EmptyString => None
      end
  end.

(** [run r s g k]: match [r] at the head of [s], with [g] the capture so
    far, and hand the rest of the text to [k]. *)
Fixpoint run (r : regex) (s : string) (g : option string)
    (k : string -> option string -> option R) : option R :=
  match r with
  | Lit l =>
      if Str.startswith l s then k (Str.drop (String.length l) s) g else None
  | Cls p =>
      match s with
      | String c s' => if p c then k s' g else None
      | EmptyString => None
      end
  | Seq a b => run a s g (fun s' g' => run b s' g' k)
  | Alt a b =>
      match run a s g k with
      | Some x => Some x
      | None => run b s g k
      end
  | Star p => star_greedy p s (fun s' => k s' g)
  | LazyStar p => star_lazy p s (fun s' => k s' g)
  | Group a =>
      run a s g (fun s' _ =>
        k s' (Some (Str.take (String.length s - String.length s') s)))
  end.

End Matcher.

(** [re.match(r, s)]: the capture of the first successful way of matching
    [r] at the head of [s]. *)
Definition match_at (r : regex) (s : string) : option (option string) :=
  run (option string) r s None (fun _ g => Some g).

(** [re.search(r, s)]: the leftmost position where [r] matches.  The result
    is [m.group(1)] of the match object. *)
Fixpoint search (r : regex) (s : string) : option (option string) :=
  match match_at r s with
  | Some g => Some g
  | None =>
      match s with
      | EmptyString => None
      | String _ s' => search r s'
      end
  end.

End Re.

(** ** The directory tree under the base folder

    The program looks three levels down and no further, so the tree is
    modelled to that depth.  Each entry carries the text
    [extract_text_from_pdf] returns for its path: the text of the pages, or the
    message [Error reading PDF: ...] when the document cannot be opened. *)

(** An entry of a placement folder. *)
Record file_entry : Type := mk_file {
  file_name : string;
  file_text : string
}.

(** An entry of an event folder. *)
Record sub_entry : Type := mk_sub {
  sub_name : string;
  sub_isdir : bool;
  sub_text : string;
  sub_files : list file_entry
}.

(** An entry of the base folder. *)
Record top_entry : Type := mk_top {
  top_name : string;
  top_isdir : bool;
  top_entries : list sub_entry
}.

Definition tree := list top_entry.

(** ** Loading the placements *)

Definition PlacementMap := Dict.t string.
Definition CorpusIndex := Dict.t PlacementMap.

(** Lines 39-46. *)
Definition placement_of (subfolder : string) : string :=
  let folder_name := Str.lower subfolder in
  if Str.contains "1st" folder_name then "1st"
  else if Str.contains "2nd" folder_name then "2nd"
  else if Str.contains "3rd" folder_name then "3rd"
  else "other".

(** Lines 48-52: the loop over the files of a placement folder, which stops
    at the first name ending in [.pdf]. *)
Fixpoint first_pdf (files : list file_entry) : option string :=
  match files with
  | [] => None
  | file :: rest =>
      if Str.endswith (Str.lower (file_name file)) ".pdf"
      then Some (file_text file)
      else first_pdf rest
  end.

(** One round of the loop of lines 34-52. *)
Definition placement_step (placement_map : PlacementMap) (sub : sub_entry)
    : PlacementMap :=
  if negb (sub_isdir sub) then placement_map
  else
    match first_pdf (sub_files sub) with
    | Some text => Dict.set (placement_of (sub_name sub)) text placement_map
    | None => placement_map
    end.

Definition placement_map_of (subs : list sub_entry) : PlacementMap :=
  fold_left placement_step subs Dict.empty.

(** One round of the loop of lines 28-55. *)
Definition index_step (gtoc_data : CorpusIndex) (top : top_entry)
    : CorpusIndex :=
  if negb (top_isdir top) then gtoc_data
  else
    let placement_map := placement_map_of (top_entries top) in
    if Dict.nonempty placement_map
    then Dict.set (Str.lower (top_name top)) placement_map gtoc_data
    else gtoc_data.

Definition load_gtoc_pdfs_by_placement (base_folder : tree) : CorpusIndex :=
  fold_left index_step base_folder Dict.empty.

(** ** Loading the past problem statements *)

(** Lines 69-74, for one entry of an event folder. *)
Definition problem_snippet (file : sub_entry) : list string :=
  let name := Str.lower (sub_name file) in
  if Str.endswith name ".pdf" && Str.contains "-problem" name then
    let text := sub_text file in
    if Str.nonempty text
    then [Str.take 1000 (Str.replace_char "010" " " (Str.strip text))]
    else []
  else [].

Definition load_past_problem_statements (base_folder : tree) : list string :=
  flat_map
    (fun folder =>
       if negb (top_isdir folder) then []
       else flat_map problem_snippet (top_entries folder))
    base_folder.

(** ** The patterns of the source *)

Definition ws : Re.regex := Re.Star Str.is_space.
Definition digits : Re.regex := Re.Group (Re.Plus Str.is_digit).

(** [r"Score:\s*(\d+)"], line 142. *)
Definition score_pat : Re.regex :=
  Re.Seq (Re.Lit "Score:") (Re.Seq ws digits).

(** [r"gtoc\s*(\d+)"], line 185. *)
Definition gtoc_pat : Re.regex :=
  Re.Seq (Re.Lit "gtoc") (Re.Seq ws digits).

(** [r"(1st|first|2nd|second|3rd|third)"], line 194. *)
Definition place_pat : Re.regex :=
  Re.Group
    (Re.Alt (Re.Lit "1st") (Re.Alt (Re.Lit "first")
    (Re.Alt (Re.Lit "2nd") (Re.Alt (Re.Lit "second")
    (Re.Alt (Re.Lit "3rd") (Re.Lit "third")))))).

(** [r"(?:create|generate|make).*?gtoc\s*(\d+)"], line 214. *)
Definition gen_pat : Re.regex :=
  Re.Seq (Re.Alt (Re.Lit "create") (Re.Alt (Re.Lit "generate") (Re.Lit "make")))
         (Re.Seq (Re.LazyStar Str.not_newline) gtoc_pat).

(** [m.group(1)] as a string.  The group takes part in every match of the
    patterns above (lemma [search_group] below), so the default is never
    used. *)
Definition group1 (g : option string) : string :=
  match g with Some d => d | None => EmptyString end.

(** ** The world: what the program reads and what it leaves behind *)

Inductive exn : Type :=
| GatewayFailure
| OSError
| EOFError.

(** What the program asks of the operating system: [os.makedirs(path,
    exist_ok=True)], and [open(path, "w")] followed by the writing of the
    content. *)
Inductive os_call : Type :=
| Makedirs (path : string)
| Write (path content : string).

Inductive result (A : Type) : Type :=
| Ok (a : A)
| Raise (e : exn).

Arguments Ok {A} a.
Arguments Raise {A} e.

(** A file written in full through [open(path, "w")]. *)
Record written_file : Type := mk_written {
  w_path : string;
  w_content : string
}.

(** [os.path.join(a, b)] for a relative [b], with the POSIX separator. *)
Definition path_join (a b : string) : string := a ++ "/" ++ b.

(** The default of the [base_folder] parameters; no caller passes another. *)
Definition base_folder_name : string := "Gtoc information".

Section Program.

(** The outside of the program, with its state [G].  The completion
    service: from the state and the user message, the content of the first
    choice, or nothing when the call raises.  The operating system: from the
    state and the call, whether the call is carried out; when it is not, it
    raises [OSError]. *)
Variable G : Type.
Variable ChatCompletion_create : G -> string -> G * option string.
Variable operating_system : G -> os_call -> G * bool.

Record world : Type := mk_world {
  gateway : G;
  disk : tree;
  requests : list string;
  stdout : list string;
  written : list written_file
}.

Definition M (A : Type) : Type := world -> world * result A.

Definition ret {A} (a : A) : M A := fun w => (w, Ok a).

Definition bind {A B} (c : M A) (k : A -> M B) : M B :=
  fun w =>
    match c w with
    | (w', Ok a) => k a w'
    | (w', Raise e) => (w', Raise e)
    end.

Notation "x <- c ;; k" := (bind c (fun x => k))
  (at level 61, c at next level, right associativity).
Notation "c ;;; k" := (bind c (fun _ => k))
  (at level 61, right associativity).

Definition print (line : string) : M unit :=
  fun w =>
    (mk_world (gateway w) (disk w) (requests w) (stdout w ++ [line])%list (written w),
     Ok tt).

(** [os.makedirs(path, exist_ok=True)], line 169. *)
Definition makedirs (path : string) : M unit :=
  fun w =>
    let (g', done) := operating_system (gateway w) (Makedirs path) in
    let w' := mk_world g' (disk w) (requests w) (stdout w) (written w) in
    if done then (w', Ok tt) else (w', Raise OSError).

(** [with open(path, "w", encoding="utf-8") as f: f.write(content)]. *)
Definition write_file (path content : string) : M unit :=
  fun w =>
    let (g', done) := operating_system (gateway w) (Write path content) in
    if done
    then (mk_world g' (disk w) (requests w) (stdout w)
                   (written w ++ [mk_written path content])%list,
          Ok tt)
    else (mk_world g' (disk w) (requests w) (stdout w) (written w),
          Raise OSError).

Definition listdir_base : M tree := fun w => (w, Ok (disk w)).

(** Lines 102-112.  The system message, the model, [max_tokens] and
    [temperature] are constants of the call; the prompt is what varies. *)
Definition get_openai_response (prompt : string) : M string :=
  fun w =>
    let (g', content) := ChatCompletion_create (gateway w) prompt in
    let w' := mk_world g' (disk w) (requests w ++ [prompt])%list (stdout w)
                       (written w) in
    match content with
    | Some text => (w', Ok (Str.strip text))
    | None => (w', Raise GatewayFailure)
    end.

Definition nl := Str.nl.

(** Lines 81-95. *)
Definition xai_prompt (generated_problem past_problems_sample : string)
    : string :=
  "You are an expert judge of Global Trajectory Optimization Competition (GTOC) problem statements." ++ nl ++ nl ++
  "Evaluate the following GENERATED PROBLEM compared to PAST PROBLEMS:" ++ nl ++
  "- Score it 0 to 100 (alignment with past GTOCs)." ++ nl ++
  "- Explain why you gave that score." ++ nl ++
  "- Suggest improvements." ++ nl ++ nl ++
  "PAST PROBLEMS:" ++ nl ++
  past_problems_sample ++ nl ++ nl ++
  "GENERATED PROBLEM:" ++ nl ++
  generated_problem ++ nl ++ nl ++
  "Your response format:" ++ nl ++
  "Score: (number)" ++ nl ++
  "Explanation: (text)" ++ nl ++
  "Suggestions: (text)" ++ nl.

Definition get_xai_feedback (generated_problem past_problems_sample : string)
    : M string :=
  get_openai_response (xai_prompt generated_problem past_problems_sample).

(** Lines 121-126. *)
Definition draft_prompt (gtoc_number : N) (past_problems_sample : string)
    : string :=
  "Based on the style and content of previous GTOC problem statements below, create a new problem " ++
  "for a hypothetical GTOC" ++ Str.of_N gtoc_number ++
  ". Include a mission description and objectives." ++ nl ++ nl ++
  "Then generate fake mission data in CSV format (columns: Target Name, Distance (AU), Delta-V (km/s), Time Window (days))." ++ nl ++ nl ++
  "PAST PROBLEMS:" ++ nl ++ past_problems_sample.

(** Lines 152-157. *)
Definition fix_prompt (score : N) (problem_text past_problems_sample
    xai_feedback : string) : string :=
  "The following GTOC problem scored poorly (" ++ Str.of_N score ++
  "). Please revise it to better match the style and depth of real GTOCs." ++ nl ++ nl ++
  "Problem to fix:" ++ nl ++ problem_text ++ nl ++ nl ++
  "Real examples:" ++ nl ++ past_problems_sample ++ nl ++ nl ++
  "Suggestions:" ++ nl ++ xai_feedback.

Definition marker : string := "Target Name".
Definition no_problem : string := "No problem generated".
Definition csv_header : string :=
  "Target Name,Distance (AU),Delta-V (km/s),Time Window (days)".

(** Lines 132-135 and again 160-163: when the marker is in the completion the
    two texts are replaced, otherwise they stay as they are. *)
Definition marker_split (current : string * string) (response : string)
    : string * string :=
  if Str.contains marker response then
    let parts := Str.split1 marker response in
    (Str.strip (Str.item parts 0), marker ++ Str.strip (Str.item parts 1))
  else current.

(** Lines 142-146. *)
Definition extract_score (xai_feedback : string) : N :=
  match Re.search score_pat xai_feedback with
  | Some g => Str.int (group1 g)
  | None => 0%N
  end.

(** Line 118. *)
Definition sample_of (past_problems_list : list string) : string :=
  Str.join (nl ++ nl) (firstn 5 past_problems_list).

(** Lines 149-165. *)
Definition revise (score : N) (problem_text csv_data past_problems_sample
    xai_feedback : string) : M (string * string) :=
  if (score <? 70)%N then
    print "XAI feedback score too low, requesting improvement..." ;;;
    improved_response <-
      get_openai_response
        (fix_prompt score problem_text past_problems_sample xai_feedback) ;;
    let texts := marker_split (problem_text, csv_data) improved_response in
    print "Problem improved based on XAI feedback." ;;;
    ret texts
  else ret (problem_text, csv_data).

(** Lines 167-180, step 4. *)
Definition save_outputs (gtoc_number : N) (problem_text csv_data
    xai_feedback : string) : M unit :=
  let new_folder := path_join base_folder_name ("Gtoc" ++ Str.of_N gtoc_number) in
  makedirs new_folder ;;;
  write_file (path_join new_folder ("GTOC" ++ Str.of_N gtoc_number ++ "-PROBLEM.txt")) problem_text ;;;
  write_file (path_join new_folder ("GTOC" ++ Str.of_N gtoc_number ++ "-data.csv")) csv_data ;;;
  write_file (path_join new_folder ("GTOC" ++ Str.of_N gtoc_number ++ "-XAI-Feedback.txt")) xai_feedback ;;;
  print ("GTOC" ++ Str.of_N gtoc_number ++ " created and saved in '" ++ new_folder ++ "'.").

(** Lines 116-180.  The pictographs that open four of the printed lines are
    left out of the printed text. *)
Definition create_fake_gtoc (gtoc_number : N) : M unit :=
  base_folder <- listdir_base ;;
  let past_problems_list := load_past_problem_statements base_folder in
  let past_problems_sample := sample_of past_problems_list in
  response <- get_openai_response (draft_prompt gtoc_number past_problems_sample) ;;
  let texts := marker_split (no_problem, csv_header) response in
  xai_feedback <- get_xai_feedback (fst texts) past_problems_sample ;;
  print ("XAI Feedback:" ++ nl ++ xai_feedback) ;;;
  let score := extract_score xai_feedback in
  final <- revise score (fst texts) (snd texts) past_problems_sample xai_feedback ;;
  save_outputs gtoc_number (fst final) (snd final) xai_feedback.

(** ** Parsing the user's line *)

(** Lines 195-199. *)
Definition place_map : Dict.t string :=
  [ ("1st", "1st"); ("first", "1st");
    ("2nd", "2nd"); ("second", "2nd");
    ("3rd", "3rd"); ("third", "3rd") ]%list.

(** Lines 194-200. *)
Definition placement_key_of (user_input : string) : option string :=
  match Re.search place_pat (Str.lower user_input) with
  | Some g => Dict.get (group1 g) place_map
  | None => None
  end.

(** Lines 184-202. *)
Definition parse_gtoc_request (user_input : string)
    : option string * option string :=
  match Re.search gtoc_pat (Str.lower user_input) with
  | Some g =>
      let number := Str.int (group1 g) in
      if (99 <? number)%N then (None, None)
      else (Some ("gtoc" ++ Str.of_N number), placement_key_of user_input)
  | None => (None, placement_key_of user_input)
  end.

(** [if x:] on a value that is a string or [None]. *)
Definition truthy (x : option string) : option string :=
  match x with
  | Some s => if Str.nonempty s then Some s else None
  | None => None
  end.

(** Lines 237-239. *)
Definition combined_of (folder_data : PlacementMap) : string :=
  Str.join (nl ++ nl)
    (List.map (fun '(place, txt) =>
       Str.upper place ++ " PLACE:" ++ nl ++ Str.take 800 txt) folder_data).

(** Line 247, one entry of the index. *)
Definition excerpt (g_key place txt : string) : string :=
  Str.upper g_key ++ " " ++ Str.upper place ++ ":" ++ nl ++
  Str.take 500 txt ++ nl ++ nl.

(** Lines 244-247: the two nested loops that grow [all_text]. *)
Definition all_text_of (gtoc_data : CorpusIndex) : string :=
  fold_left
    (fun all_text '(g_key, placements) =>
       fold_left
         (fun all_text '(place, txt) => all_text ++ excerpt g_key place txt)
         placements all_text)
    gtoc_data EmptyString.

(** Line 248: what stands between the opening line of the prompt and the
    question. *)
Definition global_context (gtoc_data : CorpusIndex) : string :=
  Str.take 3000 (all_text_of gtoc_data).

Definition global_prompt (gtoc_data : CorpusIndex) (user_input : string)
    : string :=
  "Based on all known GTOCs:" ++ nl ++ nl ++ global_context gtoc_data ++
  nl ++ nl ++ "User's question: " ++ user_input.

(** Lines 225-248: the prompt of the answering path. *)
Definition answer_prompt (gtoc_data : CorpusIndex) (user_input : string)
    : string :=
  let (gtoc_key, placement_key) := parse_gtoc_request user_input in
  match truthy gtoc_key with
  | Some gtoc_key =>
      match Dict.get gtoc_key gtoc_data with
      | Some ((_ :: _) as folder_data) =>
          match truthy placement_key with
          | Some placement_key =>
              match truthy (Dict.get placement_key folder_data) with
              | Some content =>
                  "Based only on this content:" ++ nl ++ nl ++
                  Str.take 2000 content ++ nl ++ nl ++
                  "Answer this:" ++ nl ++ user_input
              | None =>
                  "No info for " ++ placement_key ++ " in " ++
                  Str.upper gtoc_key ++ "."
              end
          | None =>
              "Here's info for " ++ Str.upper gtoc_key ++ ":" ++ nl ++
              combined_of folder_data ++ nl ++ nl ++
              "User asked: " ++ user_input
          end
      | _ => Str.upper gtoc_key ++ " not found."
      end
  | None => global_prompt gtoc_data user_input
  end.

(** ** The session loop *)

(** Which arm of the loop body (lines 214-251) a line of input takes. *)
Inductive branch : Type :=
| Generate (future_gtoc : N)
| AlreadyExists (future_gtoc : N)
| Answer (prompt : string).

(** Lines 214-248: the choice of the arm. *)
Definition route (gtoc_data : CorpusIndex) (user_input : string) : branch :=
  let gen_match := Re.search gen_pat (Str.lower user_input) in
  match gen_match with
  | Some g =>
      match truthy g with
      | Some number =>
          let future_gtoc := Str.int number in
          if negb (Dict.mem ("gtoc" ++ Str.of_N future_gtoc) gtoc_data)
          then Generate future_gtoc
          else AlreadyExists future_gtoc
      | None => Answer (answer_prompt gtoc_data user_input)
      end
  | None => Answer (answer_prompt gtoc_data user_input)
  end.

(** Lines 218, 221 and 250-251: what each arm does. *)
Definition perform (b : branch) : M unit :=
  match b with
  | Generate future_gtoc => create_fake_gtoc future_gtoc
  | AlreadyExists future_gtoc =>
      print ("GTOC" ++ Str.of_N future_gtoc ++ " already exists.")
  | Answer prompt =>
      response <- get_openai_response prompt ;;
      print ("Bot: " ++ response)
  end.

Definition raise {A} (e : exn) : M A := fun w => (w, Raise e).

(** Lines 209-251.  [stdin] is the lines the user will type; [input] shows
    its prompt and raises at the end of the input. *)
Fixpoint chat_loop (gtoc_data : CorpusIndex) (stdin : list string) : M unit :=
  print "You: " ;;;
  match stdin with
  | nil => raise EOFError
  | cons user_input rest =>
      if String.eqb (Str.lower user_input) "exit" then ret tt
      else
        perform (route gtoc_data user_input) ;;;
        chat_loop gtoc_data rest
  end.

(** Lines 206-251. *)
Definition start_chatbot (gtoc_data : CorpusIndex) (stdin : list string)
    : M unit :=
  print "Chatbot ready! Type 'exit' to quit." ;;;
  chat_loop gtoc_data stdin.

(** Lines 255-257. *)
Definition main (stdin : list string) : M unit :=
  base_folder <- listdir_base ;;
  start_chatbot (load_gtoc_pdfs_by_placement base_folder) stdin.

End Program.

Arguments gateway {G} w.
Arguments disk {G} w.
Arguments requests {G} w.
Arguments stdout {G} w.
Arguments written {G} w.
Arguments mk_world {G}.
Arguments ret {G A} a w.
Arguments raise {G A} e w.
Arguments bind {G A B} c k w.
Arguments print {G} line w.
Arguments makedirs {G} operating_system path w.
Arguments write_file {G} operating_system path content w.
Arguments listdir_base {G} w.
Arguments get_openai_response {G} ChatCompletion_create prompt w.
Arguments get_xai_feedback {G} ChatCompletion_create.
Arguments revise {G} ChatCompletion_create.
Arguments save_outputs {G} operating_system gtoc_number problem_text csv_data
  xai_feedback w.
Arguments create_fake_gtoc {G} ChatCompletion_create operating_system
  gtoc_number.
Arguments perform {G} ChatCompletion_create operating_system b.
Arguments chat_loop {G} ChatCompletion_create operating_system gtoc_data stdin.
Arguments start_chatbot {G} ChatCompletion_create operating_system gtoc_data
  stdin.
Arguments main {G} ChatCompletion_create operating_system stdin.

(** ** The vocabulary of the statements *)

Module Notions.

(** [p] occurs in [s], with [a] before it and [b] after. *)
Definition occurs_at (p s a b : string) : Prop := s = a ++ p ++ b.

Definition occurs (p s : string) : Prop := exists a b, occurs_at p s a b.

(** [a] and [b] surround the first occurrence of [p] in [s]. *)
Definition first_occurrence (p s a b : string) : Prop :=
  occurs_at p s a b /\
  forall a' b', occurs_at p s a' b' -> String.length a <= String.length a'.

(** Every character of [s] is in the class [p]. *)
Definition all (p : ascii -> bool) (s : string) : Prop :=
  forall a b c, s = a ++ String c b -> p c = true.

(** A number: a non-empty run of decimal digits. *)
Definition number (g : option string) : Prop :=
  exists d, g = Some d /\ d <> EmptyString /\ all Str.is_digit d.

(** The text says [Score:] for the first time after [before]; what follows
    the label is white space, then the digits [d], then a text that does not
    go on with a digit. *)
Definition score_written (text d : string) : Prop :=
  exists before blank rest,
    first_occurrence "Score:" text before (blank ++ d ++ rest) /\
    all Str.is_space blank /\
    d <> EmptyString /\ all Str.is_digit d /\
    (forall c r, rest = String c r -> Str.is_digit c = false).

(** What a round of the placement loop adds: the rank key and the text of
    the first document of the folder, when the entry is a folder that holds
    one. *)
Definition contribution (sub : sub_entry) : option (string * string) :=
  if sub_isdir sub then
    match first_pdf (sub_files sub) with
    | Some text => Some (placement_of (sub_name sub), text)
    | None => None
    end
  else None.

(** The text the rank key [k] would hold if the first folder to bring one
    kept it. *)
Fixpoint first_match (k : string) (subs : list sub_entry) : option string :=
  match subs with
  | nil => None
  | cons sub rest =>
      match contribution sub with
      | Some (k', text) =>
          if String.eqb k k' then Some text else first_match k rest
      | None => first_match k rest
      end
  end.

(** The text the rank key [k] holds when every folder that brings one
    replaces what was there. *)
Fixpoint last_match (k : string) (subs : list sub_entry) : option string :=
  match subs with
  | nil => None
  | cons sub rest =>
      match last_match k rest with
      | Some text => Some text
      | None =>
          match contribution sub with
          | Some (k', text) => if String.eqb k k' then Some text else None
          | None => None
          end
      end
  end.

Definition is_pdf (file : file_entry) : bool :=
  Str.endswith (Str.lower (file_name file)) ".pdf".

(** The (event, rank, text) triples of an index, in iteration order. *)
Definition pairs (gtoc_data : CorpusIndex) : list (string * string * string) :=
  flat_map
    (fun '(g_key, placements) =>
       List.map (fun '(place, txt) => (g_key, place, txt)) placements)
    gtoc_data.

(** The labeled excerpts of an index, one after the other. *)
Definition excerpts (gtoc_data : CorpusIndex) : string :=
  fold_right
    (fun '(g_key, place, txt) rest => excerpt g_key place txt ++ rest)
    EmptyString (pairs gtoc_data).

(** The key under which the session loop looks an event number up. *)
Definition event_key (number : N) : string := "gtoc" ++ Str.of_N number.

(** The style sample read from the disk of [w]. *)
Definition sample {G} (w : world G) : string :=
  sample_of (load_past_problem_statements (disk w)).

(** The three files of a synthesized event. *)
Definition outputs (gtoc_number : N) (problem_text csv_data xai_feedback : string)
    : list written_file :=
  let new_folder := path_join base_folder_name ("Gtoc" ++ Str.of_N gtoc_number) in
  [ mk_written (path_join new_folder ("GTOC" ++ Str.of_N gtoc_number ++ "-PROBLEM.txt")) problem_text;
    mk_written (path_join new_folder ("GTOC" ++ Str.of_N gtoc_number ++ "-data.csv")) csv_data;
    mk_written (path_join new_folder ("GTOC" ++ Str.of_N gtoc_number ++ "-XAI-Feedback.txt")) xai_feedback ]%list.

(** An operating system that carries out every call. *)
Definition willing {G} (os : G -> os_call -> G * bool) : Prop :=
  forall g call, exists g', os g call = (g', true).

(** The world after a request for [prompt] that left the service in [g]. *)
Definition asked {G} (w : world G) (g : G) (prompt : string) : world G :=
  mk_world g (disk w) (requests w ++ [prompt])%list (stdout w) (written w).

End Notions.

(** ** Inputs and statements used by the examples *)

Module Samples.

Import Str Notions.

(** A base folder with one event, two teams in it. *)
Definition one_event : tree :=
  [ mk_top "Gtoc5" true
      [ mk_sub "1st-place" true "" [ mk_file "notes.txt" "N"; mk_file "a.pdf" "A" ];
        mk_sub "Honorable" true "" [ mk_file "c.PDF" "C"; mk_file "d.pdf" "D" ] ];
    mk_top "Gtoc6" true [ mk_sub "1st" true "" [ mk_file "readme.md" "R" ] ];
    mk_top "index.html" false [] ]%list.

(** C4 as stated: the text kept for a rank key is that of the first folder,
    in traversal order, that brings a document for the key. *)
Definition first_match_wins (subs : list sub_entry) : Prop :=
  forall k, Dict.get k (placement_map_of subs) = first_match k subs.

(** Two folders of one event that both classify as [1st]. *)
Definition two_firsts : list sub_entry :=
  [ mk_sub "1st-place" true "" [ mk_file "a.pdf" "A" ];
    mk_sub "team-1st" true "" [ mk_file "b.pdf" "B" ] ]%list.

(** A completion service that plays a script: each request is answered by
    the next entry, and the call raises when the entry is [None] or the script
    is over. *)
Definition scripted (script : list (option string)) (prompt : string)
    : list (option string) * option string :=
  match script with
  | nil => (nil, None)
  | cons answer rest => (rest, answer)
  end.

(** An operating system that carries out every call and keeps no trace of
    it. *)
Definition obliging {G} (g : G) (call : os_call) : G * bool := (g, true).


(** A fresh world over the scripted service. *)
Definition fresh (script : list (option string)) (base_folder : tree)
    : world (list (option string)) :=
  mk_world script base_folder nil nil nil.

(** The completion of the specification's example. *)
Definition draft_with_table : string :=
  "Intro paragraph." ++ nl ++
  "Target Name,Distance,Delta-V,Time Window" ++ nl ++ "Alpha,1.2,3.4,10".

(** C2 as stated: the table text is the marker put back before what follows
    its first occurrence, as it stands. *)
Definition table_is_marker_and_remainder (response : string) : Prop :=
  forall before after,
    first_occurrence marker response before after ->
    marker_split (no_problem, csv_header) response =
    (strip before, marker ++ after).

(** A service that answers every request with the same text. *)
Definition always (content : string) (g : unit) (prompt : string)
    : unit * option string :=
  (g, Some content).

(** An index that knows the fifth event. *)
Definition index5 : CorpusIndex := [ ("gtoc5", [ ("1st", "text") ]) ]%list.

(** A text of [n] letters. *)
Fixpoint filler (n : nat) : string :=
  match n with
  | O => EmptyString
  | S n' => String "x" (filler n')
  end.

(** Seven events with one long document each. *)
Definition long_index : CorpusIndex :=
  List.map (fun n => (event_key n, [ ("1st", filler 600) ]%list))
    [ 1; 2; 3; 4; 5; 6; 7 ]%N.

End Samples.

(** * Verification *)

(** ** Facts about strings *)

Module StrFacts.

Import Str Notions.

Lemma app_assoc_s (a b c : string) : (a ++ b) ++ c = a ++ b ++ c.
Proof. induction a as [|x a IH]; simpl; [reflexivity | now rewrite IH]. Qed.

Lemma length_app (a b : string) :
  String.length (a ++ b) = String.length a + String.length b.
Proof. induction a as [|x a IH]; simpl; [reflexivity | now rewrite IH]. Qed.

Lemma drop_app (p b : string) : drop (String.length p) (p ++ b) = b.
Proof. induction p as [|x p IH]; simpl; [now destruct b | exact IH]. Qed.

Lemma startswith_iff (p s : string) :
  startswith p s = true <-> exists b, s = p ++ b.
Proof.
  revert s; induction p as [|x p IH]; intros s; simpl.
  - split; [intros _; now exists s | reflexivity].
  - destruct s as [|y s].
    + split; [discriminate | intros [b Hb]; discriminate].
    + rewrite andb_true_iff, Ascii.eqb_eq, IH. split.
      * intros [-> [b ->]]. now exists b.
      * intros [b Hb]. injection Hb as -> ->. split; [reflexivity | now exists b].
Qed.

Lemma startswith_drop (p s : string) :
  startswith p s = true -> s = p ++ drop (String.length p) s.
Proof.
  intros H. apply startswith_iff in H as [b ->]. now rewrite drop_app.
Qed.

Lemma contains_iff (p s : string) : contains p s = true <-> occurs p s.
Proof.
  induction s as [|c s IH]; simpl.
  - rewrite orb_false_r, startswith_iff. split.
    + intros [b Hb]. now exists EmptyString, b.
    + intros [a [b Hab]]. unfold occurs_at in Hab.
      destruct a; [now exists b | discriminate].
  - rewrite orb_true_iff, IH, startswith_iff. split.
    + intros [[b Hb] | [a [b Hab]]].
      * now exists EmptyString, b.
      * exists (String c a), b. unfold occurs_at in *. simpl. now rewrite Hab.
    + intros [a [b Hab]]. unfold occurs_at in Hab. destruct a as [|x a].
      * left. now exists b.
      * right. simpl in Hab. injection Hab as _ ->. now exists a, b.
Qed.

Lemma contains_false_iff (p s : string) :
  contains p s = false <-> ~ occurs p s.
Proof.
  rewrite <- contains_iff. destruct (contains p s); split; intros H.
  - discriminate.
  - now destruct H.
  - discriminate.
  - reflexivity.
Qed.

Lemma split1_found (p s : string) :
  contains p s = true ->
  exists a b, split1 p s = [a; b]%list /\ first_occurrence p s a b.
Proof.
  induction s as [|c s IH]; simpl.
  - rewrite orb_false_r. intros H. rewrite H.
    exists EmptyString, (drop (String.length p) EmptyString).
    split; [reflexivity|]. split.
    + apply (startswith_drop p EmptyString H).
    + intros; simpl; lia.
  - destruct (startswith p (String c s)) eqn:Hp; simpl.
    + intros _. exists EmptyString, (drop (String.length p) (String c s)).
      split; [reflexivity|]. split.
      * apply (startswith_drop _ _ Hp).
      * intros; simpl; lia.
    + intros H. destruct (IH H) as [a [b [Hs [Hocc Hmin]]]].
      rewrite Hs. exists (String c a), b. split; [reflexivity|]. split.
      * unfold occurs_at in *. simpl. now rewrite <- Hocc.
      * intros a' b' H'. unfold occurs_at in H'. destruct a' as [|x a'].
        -- simpl in H'. assert (startswith p (String c s) = true) as E
             by (apply startswith_iff; now exists b').
           congruence.
        -- simpl in H'. injection H' as _ H'. simpl.
           apply le_n_S, (Hmin a' b' H').
Qed.

Lemma split1_absent (p s : string) :
  contains p s = false -> split1 p s = [s]%list.
Proof.
  induction s as [|c s IH]; simpl.
  - rewrite orb_false_r. now intros ->.
  - rewrite orb_false_iff. intros [-> H]. now rewrite (IH H).
Qed.

Lemma length_take (n : nat) (s : string) :
  String.length (take n s) = Nat.min n (String.length s).
Proof.
  revert s; induction n as [|n IH]; intros [|c s]; simpl; try reflexivity.
  now rewrite IH.
Qed.

Lemma length_take_le (n : nat) (s : string) : String.length (take n s) <= n.
Proof. rewrite length_take. lia. Qed.

End StrFacts.

(** ** Facts about dictionaries *)

Module DictFacts.

Import Dict.

Lemma get_set {V} (k k' : string) (v : V) (d : t V) :
  get k (set k' v d) = if String.eqb k k' then Some v else get k d.
Proof.
  induction d as [|[k0 v0] d IH]; simpl.
  - reflexivity.
  - destruct (String.eqb k' k0) eqn:E0; simpl.
    + apply String.eqb_eq in E0; subst k0.
      now destruct (String.eqb k k').
    + rewrite IH. destruct (String.eqb k k0) eqn:E1; [|reflexivity].
      apply String.eqb_eq in E1; subst k0.
      destruct (String.eqb k k') eqn:E2; [|reflexivity].
      apply String.eqb_eq in E2; subst k'. now rewrite String.eqb_refl in E0.
Qed.

Lemma set_nonempty {V} (k : string) (v : V) (d : t V) : set k v d <> []%list.
Proof.
  destruct d as [|[k0 v0] d]; simpl; [discriminate|].
  destruct (String.eqb k k0); discriminate.
Qed.

Lemma keys_set_in {V} (k x : string) (v : V) (d : t V) :
  In x (keys (set k v d)) -> x = k \/ In x (keys d).
Proof.
  induction d as [|[k0 v0] d IH]; simpl.
  - intros [<- | []]. now left.
  - destruct (String.eqb k k0) eqn:E; simpl.
    + intros H. now right.
    + intros [<- | H]; [right; now left|].
      destruct (IH H); [now left | right; now right].
Qed.

Lemma keys_set_nodup {V} (k : string) (v : V) (d : t V) :
  NoDup (keys d) -> NoDup (keys (set k v d)).
Proof.
  induction d as [|[k0 v0] d IH]; simpl; intros H.
  - constructor; [intros [] | constructor].
  - inversion H as [|? ? Hn Hd]; subst.
    destruct (String.eqb k k0) eqn:E; simpl.
    + now constructor.
    + constructor; [|now apply IH].
      intros Hin. apply keys_set_in in Hin as [-> | Hin].
      * now rewrite String.eqb_refl in E.
      * now apply Hn.
Qed.

End DictFacts.

(** ** Facts about the matcher *)

Module ReFacts.

Import Str Notions StrFacts Re.

Lemma all_nil (p : ascii -> bool) : all p EmptyString.
Proof. intros [|x a] b c H; discriminate. Qed.

Lemma all_cons (p : ascii -> bool) (c : ascii) (s : string) :
  p c = true -> all p s -> all p (String c s).
Proof.
  intros Hc Hs [|x a] b y H; simpl in H; injection H as -> ->.
  - exact Hc.
  - now apply (Hs a b y).
Qed.

Lemma take_app_length (c s : string) :
  take (String.length (c ++ s) - String.length s) (c ++ s) = c.
Proof.
  rewrite length_app.
  replace (String.length c + String.length s - String.length s)
    with (String.length c) by lia.
  induction c as [|x c IH]; simpl; [now destruct s | now rewrite IH].
Qed.

Section Inversion.

Variable R : Type.

Lemma star_greedy_inv (p : ascii -> bool) (s : string)
    (k : string -> option R) (x : R) :
  star_greedy R p s k = Some x ->
  exists c s', s = c ++ s' /\ all p c /\ k s' = Some x.
Proof.
  induction s as [|y s IH]; simpl.
  - intros H. exists EmptyString, EmptyString. auto using all_nil.
  - destruct (p y) eqn:Hy.
    + destruct (star_greedy R p s k) eqn:E.
      * intros H; injection H as ->.
        destruct (IH eq_refl) as [c [s' [-> [Hc Hk]]]].
        exists (String y c), s'. auto using all_cons.
      * intros H. exists EmptyString, (String y s). auto using all_nil.
    + intros H. exists EmptyString, (String y s). auto using all_nil.
Qed.

Lemma star_lazy_inv (p : ascii -> bool) (s : string)
    (k : string -> option R) (x : R) :
  star_lazy R p s k = Some x ->
  exists c s', s = c ++ s' /\ all p c /\ k s' = Some x.
Proof.
  induction s as [|y s IH]; simpl.
  - destruct (k EmptyString) eqn:E; [|discriminate].
    intros H; injection H as ->.
    exists EmptyString, EmptyString. auto using all_nil.
  - destruct (k (String y s)) eqn:E.
    + intros H; injection H as ->.
      exists EmptyString, (String y s). auto using all_nil.
    + destruct (p y) eqn:Hy; [|discriminate].
      intros H. destruct (IH H) as [c [s' [-> [Hc Hk]]]].
      exists (String y c), s'. auto using all_cons.
Qed.

(** A successful run has called its continuation on a tail of the text. *)
Lemma run_inv (r : regex) :
  forall s g k x,
    run R r s g k = Some x ->
    exists c s' g', s = c ++ s' /\ k s' g' = Some x.
Proof.
  induction r as [l | p | a IHa b IHb | a IHa b IHb | p | p | a IHa];
    intros s g k x; simpl.
  - destruct (startswith l s) eqn:E; [|discriminate].
    intros H. exists l, (drop (String.length l) s), g.
    split; [now apply startswith_drop | exact H].
  - destruct s as [|c s]; [discriminate|].
    destruct (p c); [|discriminate].
    intros H. now exists (String c EmptyString), s, g.
  - intros H. apply IHa in H as [c1 [s1 [g1 [-> H]]]].
    apply IHb in H as [c2 [s2 [g2 [-> H]]]].
    exists (c1 ++ c2), s2, g2. now rewrite app_assoc_s.
  - destruct (run R a s g k) eqn:E.
    + intros H; injection H as ->. now apply IHa in E.
    + apply IHb.
  - intros H. apply star_greedy_inv in H as [c [s' [-> [_ H]]]].
    now exists c, s', g.
  - intros H. apply star_lazy_inv in H as [c [s' [-> [_ H]]]].
    now exists c, s', g.
  - intros H. apply IHa in H as [c [s' [g' [-> H]]]].
    now exists c, s', (Some (take (String.length (c ++ s') - String.length s') (c ++ s'))).
Qed.

(** The capture group of the three numeric patterns holds one digit or more. *)
Lemma run_digits (s : string) (g : option string)
    (k : string -> option string -> option R) (x : R) :
  run R digits s g k = Some x ->
  exists d s', s = d ++ s' /\ d <> EmptyString /\ all is_digit d /\
               k s' (Some d) = Some x.
Proof.
  unfold digits, Plus. simpl.
  destruct s as [|c s]; [discriminate|].
  destruct (is_digit c) eqn:Hc; [|discriminate].
  intros H. apply star_greedy_inv in H as [d [s' [-> [Hd H]]]].
  exists (String c d), s'. repeat split.
  - discriminate.
  - now apply all_cons.
  - rewrite <- H. do 2 f_equal.
    change (String c (d ++ s')) with (String c d ++ s').
    now rewrite take_app_length.
Qed.

End Inversion.

Lemma tail_number (s : string) (g x : option string) :
  run _ (Seq ws digits) s g (fun _ g' => Some g') = Some x -> number x.
Proof.
  simpl. intros H.
  apply star_greedy_inv in H as [c [s' [-> [_ H]]]].
  apply (run_digits _ s' g (fun _ g' => Some g')) in H
    as [d [s'' [_ [Hne [Hd H]]]]].
  injection H as <-. now exists d.
Qed.

Lemma match_score_number (s : string) (x : option string) :
  match_at score_pat s = Some x -> number x.
Proof.
  unfold match_at, score_pat. intros H.
  change (run _ (Lit "Score:") s None
            (fun s' g' => run _ (Seq ws digits) s' g' (fun _ g => Some g))
          = Some x) in H.
  apply run_inv in H as [c [s' [g' [_ H]]]]. now apply tail_number in H.
Qed.

Lemma match_gtoc_number (s : string) (g x : option string) :
  run _ gtoc_pat s g (fun _ g' => Some g') = Some x -> number x.
Proof.
  unfold gtoc_pat. intros H.
  change (run _ (Lit "gtoc") s g
            (fun s' g' => run _ (Seq ws digits) s' g' (fun _ g => Some g))
          = Some x) in H.
  apply run_inv in H as [c [s' [g' [_ H]]]]. now apply tail_number in H.
Qed.

Lemma match_gen_number (s : string) (x : option string) :
  match_at gen_pat s = Some x -> number x.
Proof.
  unfold match_at, gen_pat. intros H.
  change (run _ (Alt (Lit "create") (Alt (Lit "generate") (Lit "make"))) s None
            (fun s1 g1 => run _ (LazyStar not_newline) s1 g1
               (fun s2 g2 => run _ gtoc_pat s2 g2 (fun _ g => Some g)))
          = Some x) in H.
  apply run_inv in H as [c [s' [g' [_ H]]]].
  apply run_inv in H as [c2 [s2 [g2 [_ H]]]].
  now apply match_gtoc_number in H.
Qed.

Lemma search_inv (r : regex) (s : string) (x : option string) :
  search r s = Some x -> exists a b, s = a ++ b /\ match_at r b = Some x.
Proof.
  induction s as [|c s IH]; simpl.
  - destruct (match_at r EmptyString) eqn:E; [|discriminate].
    intros H; injection H as ->. now exists EmptyString, EmptyString.
  - destruct (match_at r (String c s)) eqn:E.
    + intros H; injection H as ->. now exists EmptyString, (String c s).
    + intros H. destruct (IH H) as [a [b [-> Hb]]].
      now exists (String c a), b.
Qed.

(** In every match of a numeric pattern the group took part and holds a
    number, so [int(m.group(1))] is defined. *)
Lemma search_group (s : string) (x : option string) :
  search score_pat s = Some x \/ search gtoc_pat s = Some x \/
  search gen_pat s = Some x ->
  number x.
Proof.
  intros [H | [H | H]]; apply search_inv in H as [a [b [_ H]]].
  - now apply match_score_number in H.
  - now apply (match_gtoc_number b None).
  - now apply match_gen_number in H.
Qed.

Lemma number_truthy (g : option string) :
  number g -> truthy g = Some (group1 g).
Proof.
  intros [d [-> [Hne _]]]. simpl. destruct d; [contradiction | reflexivity].
Qed.

(** Without the label there is no score to read. *)
Lemma search_score_absent (s : string) :
  contains "Score:" s = false -> search score_pat s = None.
Proof.
  induction s as [|c s IH].
  - reflexivity.
  - intros H. cbn [contains] in H. apply orb_false_iff in H as [H1 H2].
    cbn [search]. unfold match_at, score_pat. cbn [run].
    rewrite H1. now apply IH.
Qed.

Lemma digit_not_space (c : ascii) : is_digit c = true -> is_space c = false.
Proof.
  destruct c as [[] [] [] [] [] [] [] []]; intros H;
    vm_compute in H |- *; congruence.
Qed.

Lemma all_head (p : ascii -> bool) (c : ascii) (s : string) :
  all p (String c s) -> p c = true /\ all p s.
Proof.
  intros H. split.
  - apply (H EmptyString s c). reflexivity.
  - intros a b x E. apply (H (String c a) b x). simpl. now rewrite E.
Qed.

(** A greedy repetition that can take the whole of [blank] and no more hands
    the rest to its continuation, when the continuation accepts it. *)
Lemma star_greedy_all {R} (p : ascii -> bool) (blank x : string)
    (k : string -> option R) (r : R) :
  all p blank ->
  (forall c t, x = String c t -> p c = false) ->
  k x = Some r ->
  star_greedy R p (blank ++ x) k = Some r.
Proof.
  intros Hb Hx Hk. induction blank as [|b blank IH].
  - destruct x as [|c t]; [exact Hk|]. simpl.
    now rewrite (Hx c t eq_refl).
  - apply all_head in Hb as [Hp Hb]. simpl. rewrite Hp.
    now rewrite (IH Hb).
Qed.

Lemma run_digits_exact {R} (d rest : string) (g : option string)
    (k : string -> option string -> option R) (r : R) :
  d <> EmptyString -> all is_digit d ->
  (forall c t, rest = String c t -> is_digit c = false) ->
  k rest (Some d) = Some r ->
  run R digits (d ++ rest) g k = Some r.
Proof.
  intros Hne Hd Hrest Hk. destruct d as [|c d]; [contradiction|].
  apply all_head in Hd as [Hc Hd].
  change (run R digits (String c d ++ rest) g k)
    with (if is_digit c
          then star_greedy R is_digit (d ++ rest)
                 (fun s' =>
                    k s' (Some (take (String.length (String c d ++ rest) -
                                      String.length s')
                                     (String c d ++ rest))))
          else None).
  rewrite Hc. apply star_greedy_all; try assumption.
  now rewrite take_app_length.
Qed.

Lemma match_score_at (blank d rest : string) :
  all is_space blank ->
  d <> EmptyString -> all is_digit d ->
  (forall c t, rest = String c t -> is_digit c = false) ->
  match_at score_pat ("Score:" ++ blank ++ d ++ rest) = Some (Some d).
Proof.
  intros Hb Hne Hd Hrest. unfold match_at, score_pat.
  change (run (option string) (Seq (Lit "Score:") (Seq ws digits))
            ("Score:" ++ blank ++ d ++ rest) None (fun _ g => Some g))
    with (star_greedy (option string) is_space (blank ++ d ++ rest)
            (fun s' => run (option string) digits s' None
                         (fun _ g => Some g))).
  apply star_greedy_all; [exact Hb | |].
  - intros c t E. destruct d as [|x d]; [contradiction|].
    simpl in E. injection E as <- _.
    apply all_head in Hd as [Hx _]. now apply digit_not_space.
  - now apply run_digits_exact.
Qed.

Lemma match_lit_fail (l s : string) (rest : regex) :
  startswith l s = false -> match_at (Seq (Lit l) rest) s = None.
Proof. intros H. unfold match_at. cbn [run]. now rewrite H. Qed.

Lemma search_skip (r : regex) (l a t : string) :
  (forall a1 a2, a = a1 ++ a2 -> a2 <> EmptyString ->
                 startswith l (a2 ++ t) = false) ->
  search (Seq (Lit l) r) (a ++ t) = search (Seq (Lit l) r) t.
Proof.
  intros H. induction a as [|c a IH]; [reflexivity|].
  change (search (Seq (Lit l) r) (String c a ++ t))
    with (match match_at (Seq (Lit l) r) (String c a ++ t) with
          | Some g => Some g
          | None => search (Seq (Lit l) r) (a ++ t)
          end).
  rewrite match_lit_fail
    by (apply (H EmptyString (String c a) eq_refl); discriminate).
  apply IH. intros a1 a2 E Hne. apply (H (String c a1) a2); [|exact Hne].
  simpl. now rewrite E.
Qed.

Lemma search_found (r : regex) (s : string) (g : option string) :
  match_at r s = Some g -> search r s = Some g.
Proof. intros H. destruct s; simpl; now rewrite H. Qed.

(** The score pattern reads the digits written after the first label. *)
Lemma search_score_written (text d : string) :
  score_written text d -> search score_pat text = Some (Some d).
Proof.
  intros [before [blank [rest [[Ho Hmin] [Hb [Hne [Hd Hrest]]]]]]].
  unfold occurs_at in Ho. rewrite Ho. unfold score_pat.
  rewrite (search_skip (Seq ws digits)).
  - apply search_found. now apply match_score_at.
  - intros a1 a2 E Hne2.
    destruct (startswith "Score:" (a2 ++ "Score:" ++ blank ++ d ++ rest))
      eqn:Es; [|reflexivity].
    apply startswith_iff in Es as [b Eb].
    assert (occurs_at "Score:" text a1 b) as Hocc.
    { unfold occurs_at. rewrite Ho, E, app_assoc_s. now rewrite Eb. }
    apply Hmin in Hocc. apply (f_equal String.length) in E.
    rewrite length_app in E. destruct a2; [contradiction|]. simpl in E. lia.
Qed.

(** Rendering a number and reading it back. *)
Lemma int_from_acc (d : Decimal.uint) :
  forall acc,
    int_from (N.pos acc) (NilEmpty.string_of_uint d) =
    N.pos (Pos.of_uint_acc d acc).
Proof.
  induction d; intros acc; cbn [NilEmpty.string_of_uint int_from Pos.of_uint_acc];
    try reflexivity;
    match goal with
    | |- int_from ?a _ = N.pos (Pos.of_uint_acc _ ?b) =>
        replace a with (N.pos b) by (vm_compute (code _); lia)
    end; apply IHd.
Qed.

Lemma int_of_uint (d : Decimal.uint) :
  int_from 0 (NilEmpty.string_of_uint d) = N.of_uint d.
Proof.
  induction d; cbn [NilEmpty.string_of_uint int_from];
    try reflexivity; try exact IHd;
    match goal with
    | |- int_from ?a _ = _ =>
        let v := eval vm_compute in a in change a with v
    end; apply int_from_acc.
Qed.

Lemma int_of_N (n : N) : int (of_N n) = n.
Proof.
  unfold int, of_N. rewrite <- (DecimalN.Unsigned.of_to n) at 2.
  destruct (N.to_uint n); try apply int_of_uint. reflexivity.
Qed.

Lemma digits_of_uint (d : Decimal.uint) :
  all is_digit (NilEmpty.string_of_uint d).
Proof.
  induction d; cbn [NilEmpty.string_of_uint];
    try apply all_nil; now apply all_cons.
Qed.

Lemma of_N_number (n : N) : of_N n <> EmptyString /\ all is_digit (of_N n).
Proof.
  unfold of_N. destruct (N.to_uint n) eqn:E.
  - split; [discriminate|]. apply all_cons; [reflexivity | apply all_nil].
  - split; [discriminate | apply (digits_of_uint (Decimal.D0 u))].
  - split; [discriminate | apply (digits_of_uint (Decimal.D1 u))].
  - split; [discriminate | apply (digits_of_uint (Decimal.D2 u))].
  - split; [discriminate | apply (digits_of_uint (Decimal.D3 u))].
  - split; [discriminate | apply (digits_of_uint (Decimal.D4 u))].
  - split; [discriminate | apply (digits_of_uint (Decimal.D5 u))].
  - split; [discriminate | apply (digits_of_uint (Decimal.D6 u))].
  - split; [discriminate | apply (digits_of_uint (Decimal.D7 u))].
  - split; [discriminate | apply (digits_of_uint (Decimal.D8 u))].
  - split; [discriminate | apply (digits_of_uint (Decimal.D9 u))].
Qed.

End ReFacts.

(** ** The index builder *)

Module IndexFacts.

Import Str Notions StrFacts DictFacts.

Lemma placement_step_contribution (pm : PlacementMap) (sub : sub_entry) :
  placement_step pm sub =
  match contribution sub with
  | Some (k, text) => Dict.set k text pm
  | None => pm
  end.
Proof.
  unfold placement_step, contribution.
  destruct (sub_isdir sub); simpl; [|reflexivity].
  now destruct (first_pdf (sub_files sub)).
Qed.

Lemma first_pdf_some (files : list file_entry) (text : string) :
  first_pdf files = Some text <->
  exists before file after,
    files = (before ++ file :: after)%list /\
    Forall (fun f => is_pdf f = false) before /\
    is_pdf file = true /\ file_text file = text.
Proof.
  induction files as [|f files IH]; simpl.
  - split; [discriminate|]. intros [[|? ?] [? [? [H _]]]]; discriminate.
  - fold (is_pdf f). destruct (is_pdf f) eqn:E.
    + split.
      * intros H; injection H as <-. exists nil, f, files. auto.
      * intros [[|b before] [file [after [H [Hb [Hf Ht]]]]]];
          simpl in H; injection H as -> ->.
        -- now rewrite Ht.
        -- inversion Hb; congruence.
    + rewrite IH. split.
      * intros [before [file [after [-> [Hb [Hf Ht]]]]]].
        exists (f :: before)%list, file, after. auto.
      * intros [[|b before] [file [after [H [Hb [Hf Ht]]]]]];
          simpl in H; injection H as -> ->.
        -- congruence.
        -- exists before, file, after. inversion Hb; auto.
Qed.

Lemma get_fold_placement (k : string) (subs : list sub_entry) :
  forall pm,
    Dict.get k (fold_left placement_step subs pm) =
    match last_match k subs with
    | Some text => Some text
    | None => Dict.get k pm
    end.
Proof.
  induction subs as [|sub rest IH]; intros pm; simpl.
  - reflexivity.
  - rewrite IH. destruct (last_match k rest); [reflexivity|].
    rewrite placement_step_contribution.
    destruct (contribution sub) as [[k' text]|]; [|reflexivity].
    rewrite get_set. now destruct (String.eqb k k').
Qed.

Lemma nodup_fold_placement (subs : list sub_entry) :
  forall pm,
    NoDup (Dict.keys pm) ->
    NoDup (Dict.keys (fold_left placement_step subs pm)).
Proof.
  induction subs as [|sub rest IH]; intros pm H; simpl; [exact H|].
  apply IH. rewrite placement_step_contribution.
  destruct (contribution sub) as [[k' text]|]; [|exact H].
  now apply keys_set_nodup.
Qed.

Lemma fold_placement_nil (subs : list sub_entry) :
  Forall (fun sub => contribution sub = None) subs ->
  forall pm, fold_left placement_step subs pm = pm.
Proof.
  induction 1 as [|sub rest Hs _ IH]; intros pm; simpl; [reflexivity|].
  rewrite placement_step_contribution, Hs. apply IH.
Qed.

Lemma fold_placement_nonempty (subs : list sub_entry) :
  forall pm, pm <> nil -> fold_left placement_step subs pm <> nil.
Proof.
  induction subs as [|sub rest IH]; intros pm H; simpl; [exact H|].
  apply IH. rewrite placement_step_contribution.
  destruct (contribution sub) as [[k' text]|]; [|exact H].
  apply set_nonempty.
Qed.

(** An event folder yields an empty map exactly when none of its entries
    contributes. *)
Lemma placement_map_nil (subs : list sub_entry) :
  placement_map_of subs = nil <->
  Forall (fun sub => contribution sub = None) subs.
Proof.
  unfold placement_map_of. split.
  - induction subs as [|sub rest IH]; simpl; [constructor|].
    rewrite placement_step_contribution.
    destruct (contribution sub) as [[k' text]|] eqn:E.
    + intros H. exfalso. revert H. apply fold_placement_nonempty.
      apply set_nonempty.
    + intros H. constructor; [exact E | now apply IH].
  - intros H. now apply fold_placement_nil.
Qed.

(** What a round of the event loop adds. *)
Lemma index_step_cases (idx : CorpusIndex) (top : top_entry) :
  index_step idx top =
  if top_isdir top then
    match placement_map_of (top_entries top) with
    | nil => idx
    | pm => Dict.set (lower (top_name top)) pm idx
    end
  else idx.
Proof.
  unfold index_step. destruct (top_isdir top); simpl; [|reflexivity].
  now destruct (placement_map_of (top_entries top)).
Qed.

Lemma fold_index_nonempty (base : tree) :
  forall idx,
    (forall k pm, Dict.get k idx = Some pm -> pm <> nil) ->
    forall k pm,
      Dict.get k (fold_left index_step base idx) = Some pm -> pm <> nil.
Proof.
  induction base as [|top rest IH]; intros idx Hidx; simpl; [exact Hidx|].
  apply IH. intros k pm. rewrite index_step_cases.
  destruct (top_isdir top); [|apply Hidx].
  destruct (placement_map_of (top_entries top)) as [|e pm0] eqn:E;
    [apply Hidx|].
  rewrite get_set. destruct (String.eqb k (lower (top_name top))).
  - intros H; injection H as <-. discriminate.
  - apply Hidx.
Qed.

Lemma fold_index_absent (k : string) (base : tree) :
  (forall top, In top base -> top_isdir top = true ->
               lower (top_name top) = k ->
               placement_map_of (top_entries top) = nil) ->
  forall idx, Dict.get k (fold_left index_step base idx) = Dict.get k idx.
Proof.
  induction base as [|top rest IH]; intros H idx; simpl; [reflexivity|].
  rewrite IH by (intros; apply H; simpl; auto).
  rewrite index_step_cases.
  destruct (top_isdir top) eqn:Ed; [|reflexivity].
  destruct (placement_map_of (top_entries top)) as [|e pm0] eqn:E;
    [reflexivity|].
  rewrite get_set. destruct (String.eqb k (lower (top_name top))) eqn:Ek;
    [|reflexivity].
  apply String.eqb_eq in Ek. symmetry in Ek.
  rewrite (H top (or_introl eq_refl) Ed Ek) in E. discriminate.
Qed.

(** Every value of the index is the placement map of an event folder. *)
Lemma fold_index_origin (base : tree) :
  forall idx k pm,
    Dict.get k (fold_left index_step base idx) = Some pm ->
    Dict.get k idx = Some pm \/
    exists top,
      In top base /\ top_isdir top = true /\ lower (top_name top) = k /\
      pm = placement_map_of (top_entries top).
Proof.
  induction base as [|top rest IH]; intros idx k pm; simpl; [now left|].
  intros H. apply IH in H as [H | [top' [Hin H]]].
  - rewrite index_step_cases in H.
    destruct (top_isdir top) eqn:Ed; [|now left].
    destruct (placement_map_of (top_entries top)) as [|e pm0] eqn:E;
      [now left|].
    rewrite get_set in H.
    destruct (String.eqb k (lower (top_name top))) eqn:Ek; [|now left].
    apply String.eqb_eq in Ek. injection H as <-.
    right. exists top. rewrite E. auto.
  - right. exists top'. auto.
Qed.

End IndexFacts.

(** ** Running the synthesis against the completion service *)

Module RunFacts.

Import Str Notions StrFacts ReFacts.

Section Runs.

Context {G : Type} (complete : G -> string -> G * option string)
    (os : G -> os_call -> G * bool).

Lemma get_openai_response_ok (w : world G) (prompt : string) (g : G)
    (content : string) :
  complete (gateway w) prompt = (g, Some content) ->
  get_openai_response complete prompt w = (asked w g prompt, Ok (strip content)).
Proof. unfold get_openai_response. now intros ->. Qed.

Lemma get_openai_response_raise (w : world G) (prompt : string) (g : G) :
  complete (gateway w) prompt = (g, None) ->
  get_openai_response complete prompt w =
  (asked w g prompt, Raise GatewayFailure).
Proof. unfold get_openai_response. now intros ->. Qed.

Lemma bind_ok {A B} (c : M G A) (k : A -> M G B) (w w' : world G) (a : A) :
  c w = (w', Ok a) -> bind c k w = k a w'.
Proof. unfold bind. now intros ->. Qed.

Lemma bind_raise {A B} (c : M G A) (k : A -> M G B) (w w' : world G) (e : exn) :
  c w = (w', Raise e) -> bind c k w = (w', Raise e).
Proof. unfold bind. now intros ->. Qed.

(** The revision step asks once when the score is below 70 and not at all
    otherwise. *)
Lemma revise_requests (score : N) (problem_text csv_data smp feedback : string)
    (w : world G) :
  requests (fst (revise complete score problem_text csv_data smp feedback w)) =
  (requests w ++
   if (score <? 70)%N
   then [fix_prompt score problem_text smp feedback]
   else [])%list.
Proof.
  unfold revise. destruct (score <? 70)%N.
  - unfold bind, print, get_openai_response, ret. cbn [gateway requests fst].
    destruct (complete (gateway w) _) as [g [content|]]; reflexivity.
  - unfold ret. cbn. now rewrite app_nil_r.
Qed.

(** The message that closes step 4. *)
Definition saved_message (n : N) : string :=
  "GTOC" ++ of_N n ++ " created and saved in '" ++
  path_join base_folder_name ("Gtoc" ++ of_N n) ++ "'.".

(** Step 4 sends no request. *)
Lemma save_outputs_requests (n : N) (problem_text csv_data feedback : string)
    (w : world G) :
  requests (fst (save_outputs os n problem_text csv_data feedback w)) =
  requests w.
Proof.
  unfold save_outputs, bind, makedirs, write_file, print.
  repeat match goal with
    | |- context [os ?g ?c] =>
        destruct (os g c) as [? []]; cbn [gateway disk requests stdout written fst]
    end; reflexivity.
Qed.

(** Step 4 over an operating system that carries out every call. *)
Lemma save_outputs_willing (n : N) (problem_text csv_data feedback : string)
    (w : world G) :
  willing os ->
  exists g,
    save_outputs os n problem_text csv_data feedback w =
    (mk_world g (disk w) (requests w)
       (stdout w ++ [saved_message n])%list
       (written w ++ outputs n problem_text csv_data feedback)%list,
     Ok tt).
Proof.
  intros Hw. unfold save_outputs, bind, makedirs, write_file, print, outputs.
  repeat match goal with
    | |- context [os ?g ?c] =>
        let g' := fresh "g" in
        let E := fresh "E" in
        destruct (Hw g c) as [g' E]; rewrite E;
        cbn [gateway disk requests stdout written]
    end.
  eexists. rewrite <- !app_assoc. reflexivity.
Qed.

(** Step 4 in general: all three files, or [OSError] after fewer. *)
Lemma save_outputs_outcome (n : N) (problem_text csv_data feedback : string)
    (w : world G) :
  exists w',
    (save_outputs os n problem_text csv_data feedback w = (w', Ok tt) /\
     written w' =
       (written w ++ outputs n problem_text csv_data feedback)%list) \/
    (save_outputs os n problem_text csv_data feedback w = (w', Raise OSError) /\
     exists k, k < 3 /\
       written w' =
         (written w ++
          firstn k (outputs n problem_text csv_data feedback))%list).
Proof.
  unfold save_outputs, bind, makedirs, write_file, print, outputs.
  destruct (os (gateway w) (Makedirs _)) as [g0 []];
    cbn [gateway disk requests stdout written];
    [| eexists; right; split; [reflexivity|]; exists 0; split; [lia|];
       simpl; now rewrite app_nil_r].
  destruct (os g0 (Write _ problem_text)) as [g1 []];
    cbn [gateway disk requests stdout written];
    [| eexists; right; split; [reflexivity|]; exists 0; split; [lia|];
       simpl; now rewrite app_nil_r].
  destruct (os g1 (Write _ csv_data)) as [g2 []];
    cbn [gateway disk requests stdout written];
    [| eexists; right; split; [reflexivity|]; exists 1; split; [lia|];
       reflexivity].
  destruct (os g2 (Write _ feedback)) as [g3 []];
    cbn [gateway disk requests stdout written].
  - eexists. left. split; [reflexivity|]. cbn [written].
    now rewrite <- !app_assoc.
  - eexists. right. split; [reflexivity|]. exists 2. split; [lia|].
    cbn [written firstn]. now rewrite <- !app_assoc.
Qed.

(** The run of [create_fake_gtoc] up to the critique, when the service
    answers the first two requests. *)
Lemma create_fake_gtoc_critique (n : N) (w : world G) (g1 g2 : G)
    (draft critique : string) :
  let p1 := draft_prompt n (sample w) in
  let texts := marker_split (no_problem, csv_header) (strip draft) in
  let p2 := xai_prompt (fst texts) (sample w) in
  let feedback := strip critique in
  complete (gateway w) p1 = (g1, Some draft) ->
  complete g1 p2 = (g2, Some critique) ->
  create_fake_gtoc complete os n w =
  bind (revise complete (extract_score feedback) (fst texts) (snd texts)
          (sample w) feedback)
       (fun final => save_outputs os n (fst final) (snd final) feedback)
       (mk_world g2 (disk w) (requests w ++ [p1; p2])%list
          (stdout w ++ [("XAI Feedback:" ++ nl ++ feedback)%string])%list
          (written w)).
Proof.
  intros p1 texts p2 feedback H1 H2.
  unfold create_fake_gtoc.
  unfold bind at 1. unfold listdir_base at 1. fold (sample w). fold p1.
  rewrite (bind_ok _ _ _ _ _ (get_openai_response_ok w p1 g1 draft H1)).
  cbv zeta. fold texts. unfold get_xai_feedback. fold p2.
  rewrite (bind_ok _ _ (asked w g1 p1) _ _
             (get_openai_response_ok (asked w g1 p1) p2 g2 critique H2)).
  fold feedback. unfold bind at 1. unfold print at 1.
  unfold asked. cbn [gateway disk requests stdout written].
  now rewrite <- app_assoc.
Qed.

Lemma requests_then_save {A} (c : M G A) (k : A -> string * string)
    (n : N) (feedback : string) (w : world G) :
  requests (fst (bind c (fun a => save_outputs os n (fst (k a)) (snd (k a)) feedback) w)) =
  requests (fst (c w)).
Proof.
  unfold bind. destruct (c w) as [w' [a|e]]; [|reflexivity].
  now rewrite save_outputs_requests.
Qed.

Lemma revise_high (score : N) (problem_text csv_data smp feedback : string)
    (w : world G) :
  (70 <= score)%N ->
  revise complete score problem_text csv_data smp feedback w =
  (w, Ok (problem_text, csv_data)).
Proof.
  intros H. unfold revise. apply N.ltb_ge in H. now rewrite H.
Qed.

Lemma revise_low_ok (score : N) (problem_text csv_data smp feedback : string)
    (w : world G) (g : G) (revision : string) :
  (score < 70)%N ->
  complete (gateway w) (fix_prompt score problem_text smp feedback) =
    (g, Some revision) ->
  revise complete score problem_text csv_data smp feedback w =
  (mk_world g (disk w)
     (requests w ++ [fix_prompt score problem_text smp feedback])%list
     (stdout w ++ ["XAI feedback score too low, requesting improvement...";
                   "Problem improved based on XAI feedback."])%list
     (written w),
   Ok (marker_split (problem_text, csv_data) (strip revision))).
Proof.
  intros H Hc. unfold revise. apply N.ltb_lt in H. rewrite H.
  unfold bind at 1. unfold print at 1.
  erewrite bind_ok by (apply get_openai_response_ok; exact Hc).
  unfold bind, print, ret, asked. cbn [gateway disk requests stdout written].
  now rewrite <- app_assoc.
Qed.

(** Every run of [create_fake_gtoc] sends the draft request, and at most two
    requests after it. *)
Lemma create_fake_gtoc_requests (n : N) (w : world G) :
  exists extra : list string,
    requests (fst (create_fake_gtoc complete os n w)) =
      (requests w ++ draft_prompt n (sample w) :: extra)%list /\
    List.length extra <= 2.
Proof.
  destruct (complete (gateway w) (draft_prompt n (sample w)))
    as [g1 [draft|]] eqn:H1.
  - set (texts := marker_split (no_problem, csv_header) (strip draft)).
    destruct (complete g1 (xai_prompt (fst texts) (sample w)))
      as [g2 [critique|]] eqn:H2.
    + rewrite (create_fake_gtoc_critique n w g1 g2 draft critique H1 H2).
      rewrite (requests_then_save _ (fun a => a)), revise_requests.
      cbn [requests]. fold texts.
      destruct (extract_score (strip critique) <? 70)%N;
        rewrite <- app_assoc; eexists; (split; [reflexivity | simpl; lia]).
    + unfold create_fake_gtoc.
      unfold bind at 1. unfold listdir_base at 1. fold (sample w).
      rewrite (bind_ok _ _ _ _ _ (get_openai_response_ok w _ g1 draft H1)).
      cbv zeta. fold texts. unfold get_xai_feedback.
      rewrite (bind_raise _ _ (asked w g1 _) _ _
                 (get_openai_response_raise (asked w g1 _) _ g2 H2)).
      cbn [fst asked requests]. rewrite <- app_assoc.
      eexists; (split; [reflexivity | simpl; lia]).
  - unfold create_fake_gtoc.
    unfold bind at 1. unfold listdir_base at 1. fold (sample w).
    rewrite (bind_raise _ _ _ _ _ (get_openai_response_raise w _ g1 H1)).
    cbn [fst asked requests].
    eexists; (split; [reflexivity | simpl; lia]).
Qed.

End Runs.

End RunFacts.



(** ** The session loop *)

Module SessionFacts.

Import Str Notions StrFacts ReFacts.

Lemma app_nil_r_s (s : string) : s ++ EmptyString = s.
Proof. induction s as [|c s IH]; simpl; [reflexivity | now rewrite IH]. Qed.

Lemma fold_placements (g_key : string) (placements : PlacementMap) :
  forall acc,
    fold_left
      (fun all_text '(place, txt) => all_text ++ excerpt g_key place txt)
      placements acc =
    acc ++ fold_right
             (fun '(g, place, txt) rest => excerpt g place txt ++ rest)
             EmptyString
             (List.map (fun '(place, txt) => (g_key, place, txt)) placements).
Proof.
  induction placements as [|[place txt] rest IH]; intros acc; simpl.
  - now rewrite app_nil_r_s.
  - now rewrite IH, app_assoc_s.
Qed.

Lemma fold_right_excerpts_app (l1 l2 : list (string * string * string)) :
  fold_right (fun '(g, place, txt) rest => excerpt g place txt ++ rest)
    EmptyString (l1 ++ l2) =
  fold_right (fun '(g, place, txt) rest => excerpt g place txt ++ rest)
    EmptyString l1 ++
  fold_right (fun '(g, place, txt) rest => excerpt g place txt ++ rest)
    EmptyString l2.
Proof.
  induction l1 as [|[[g place] txt] l1 IH]; simpl; [reflexivity|].
  now rewrite IH, app_assoc_s.
Qed.

Lemma fold_events (gtoc_data : CorpusIndex) :
  forall acc,
    fold_left
      (fun all_text '(g_key, placements) =>
         fold_left
           (fun all_text '(place, txt) => all_text ++ excerpt g_key place txt)
           placements all_text)
      gtoc_data acc =
    acc ++ excerpts gtoc_data.
Proof.
  unfold excerpts.
  induction gtoc_data as [|[g_key placements] rest IH]; intros acc; simpl.
  - now rewrite app_nil_r_s.
  - rewrite IH, fold_placements, fold_right_excerpts_app.
    now rewrite app_assoc_s.
Qed.

(** The two loops that grow [all_text] concatenate the excerpts of the
    index in its iteration order. *)
Lemma all_text_excerpts (gtoc_data : CorpusIndex) :
  all_text_of gtoc_data = excerpts gtoc_data.
Proof. unfold all_text_of. now rewrite fold_events. Qed.

Lemma take_all (n : nat) (s : string) : String.length s <= n -> take n s = s.
Proof.
  revert s; induction n as [|n IH]; intros [|c s]; simpl; intros H;
    try reflexivity; try lia.
  rewrite IH; [reflexivity | lia].
Qed.

(** With a generation request in the line, the loop body takes one of the
    two generation arms, according to the index. *)
Lemma route_generation (gtoc_data : CorpusIndex) (user_input : string)
    (g : option string) :
  Re.search gen_pat (lower user_input) = Some g ->
  route gtoc_data user_input =
  if Dict.mem (event_key (int (group1 g))) gtoc_data
  then AlreadyExists (int (group1 g))
  else Generate (int (group1 g)).
Proof.
  intros H. unfold route. rewrite H.
  rewrite (number_truthy g) by (apply (search_group (lower user_input)); auto).
  unfold event_key. now destruct (Dict.mem _ gtoc_data).
Qed.

Lemma route_generate_inv (gtoc_data : CorpusIndex) (user_input : string)
    (n : N) :
  route gtoc_data user_input = Generate n ->
  Dict.mem (event_key n) gtoc_data = false /\
  exists g, Re.search gen_pat (lower user_input) = Some g /\
            n = int (group1 g).
Proof.
  destruct (Re.search gen_pat (lower user_input)) as [g|] eqn:E.
  - rewrite (route_generation _ _ _ E).
    destruct (Dict.mem _ gtoc_data) eqn:Em; [discriminate|].
    intros H; injection H as <-. split; [exact Em | now exists g].
  - unfold route. rewrite E. discriminate.
Qed.

Lemma route_answer (gtoc_data : CorpusIndex) (user_input : string) :
  Re.search gen_pat (lower user_input) = None ->
  route gtoc_data user_input = Answer (answer_prompt gtoc_data user_input).
Proof. intros H. unfold route. now rewrite H. Qed.

Lemma generation_line_not_exit (user_input : string) (g : option string) :
  Re.search gen_pat (lower user_input) = Some g ->
  String.eqb (lower user_input) "exit" = false.
Proof.
  intros H. destruct (String.eqb (lower user_input) "exit") eqn:E;
    [|reflexivity].
  apply String.eqb_eq in E. rewrite E in H. vm_compute in H. discriminate.
Qed.

(** One round of the loop on a line that is not [exit]. *)
Lemma chat_loop_line {G} (complete : G -> string -> G * option string)
    (os : G -> os_call -> G * bool)
    (gtoc_data : CorpusIndex) (user_input : string) (rest : list string)
    (w : world G) :
  String.eqb (lower user_input) "exit" = false ->
  chat_loop complete os gtoc_data (user_input :: rest) w =
  bind (perform complete os (route gtoc_data user_input))
       (fun _ => chat_loop complete os gtoc_data rest)
       (mk_world (gateway w) (disk w) (requests w)
          (stdout w ++ ["You: "])%list (written w)).
Proof.
  intros H. cbn [chat_loop]. unfold bind at 1. unfold print at 1.
  now rewrite H.
Qed.

End SessionFacts.

(** * The claims *)

Import Str Notions Samples.

(** ** The index builder *)

(** C8.  The rank key of a folder is decided by which of [1st], [2nd], [3rd]
    occurs in its lowercased name, in that order of precedence, and is [other]
    when none does; the four folder names of the specification classify as
    [1st], [2nd], [3rd] and [other]. *)
Theorem placement_of_classification (subfolder : string) :
  let folder_name := lower subfolder in
  (placement_of subfolder = "1st" <-> occurs "1st" folder_name) /\
  (placement_of subfolder = "2nd" <->
     ~ occurs "1st" folder_name /\ occurs "2nd" folder_name) /\
  (placement_of subfolder = "3rd" <->
     ~ occurs "1st" folder_name /\ ~ occurs "2nd" folder_name /\
     occurs "3rd" folder_name) /\
  (placement_of subfolder = "other" <->
     ~ occurs "1st" folder_name /\ ~ occurs "2nd" folder_name /\
     ~ occurs "3rd" folder_name) /\
  placement_of "Winner-1st-Place" = "1st" /\
  placement_of "2ND runner up" = "2nd" /\
  placement_of "bronze-3rd" = "3rd" /\
  placement_of "Honorable" = "other".
Proof.
  intros folder_name. unfold placement_of. fold folder_name.
  rewrite <- !StrFacts.contains_false_iff, <- !StrFacts.contains_iff.
  destruct (contains "1st" folder_name);
    destruct (contains "2nd" folder_name);
    destruct (contains "3rd" folder_name);
    repeat split; try reflexivity; try discriminate;
    try (intros [? ?]; discriminate);
    try (intros [? [? ?]]; discriminate).
Qed.

(** C6.  Every event key of the index built from a base folder maps to a
    non-empty placement map.  An event folder none of whose entries
    contributes a document leaves the index as it was, and a key that only
    such folders could bring is not in the index. *)
Theorem index_maps_nonempty (base_folder : tree) :
  let gtoc_data := load_gtoc_pdfs_by_placement base_folder in
  (forall k placement_map,
     Dict.get k gtoc_data = Some placement_map -> placement_map <> nil) /\
  (forall top idx,
     Forall (fun sub => contribution sub = None) (top_entries top) ->
     index_step idx top = idx) /\
  (forall k,
     (forall top,
        In top base_folder -> top_isdir top = true ->
        lower (top_name top) = k ->
        Forall (fun sub => contribution sub = None) (top_entries top)) ->
     Dict.mem k gtoc_data = false).
Proof.
  intros gtoc_data. split; [|split].
  - apply IndexFacts.fold_index_nonempty. intros k pm H. discriminate.
  - intros top idx H. rewrite IndexFacts.index_step_cases.
    apply IndexFacts.placement_map_nil in H. rewrite H.
    now destruct (top_isdir top).
  - intros k H. unfold Dict.mem, gtoc_data, load_gtoc_pdfs_by_placement.
    rewrite IndexFacts.fold_index_absent; [reflexivity|].
    intros top Hin Hd Hk. apply IndexFacts.placement_map_nil. now apply H.
Qed.

Lemma index_maps_nonempty_witness :
  load_gtoc_pdfs_by_placement one_event =
    [ ("gtoc5", [ ("1st", "A"); ("other", "C") ]) ]%list /\
  [ ("1st", "A"); ("other", "C") ]%list <> (nil : PlacementMap) /\
  Dict.mem "gtoc6" (load_gtoc_pdfs_by_placement one_event) = false.
Proof.
  split; [reflexivity|]. split.
  - apply (proj1 (index_maps_nonempty one_event) "gtoc5"). reflexivity.
  - apply (proj2 (proj2 (index_maps_nonempty one_event)) "gtoc6").
    intros top [<- | [<- | [<- | []]]] Hd Hk; try discriminate.
    repeat constructor.
Defined.

(** C4, counterexample.  With two folders of the rank [1st] the index keeps
    the text of the second, where the first match is the text of the first. *)
Lemma later_folder_replaces_earlier :
  load_gtoc_pdfs_by_placement [ mk_top "Gtoc5" true two_firsts ]%list =
    [ ("gtoc5", [ ("1st", "B") ]) ]%list /\
  first_match "1st" two_firsts = Some "A" /\
  ~ first_match_wins two_firsts.
Proof.
  split; [reflexivity|]. split; [reflexivity|].
  intros H. specialize (H "1st"). discriminate.
Qed.

(** C4, amended.  Every value of the index is the placement map of one
    event folder, and it holds at most one text per rank key.  Within a rank
    folder the text is that of the first entry, in traversal order, whose name
    ends in [.pdf], and the entries after it are not looked at.  Across the
    rank folders of the event a later folder that brings a text for the same
    rank key replaces the earlier one, so the text kept is that of the last
    such folder. *)
Theorem placement_map_one_text_per_rank
    (base_folder : tree) (k : string) (placement_map : PlacementMap) :
  Dict.get k (load_gtoc_pdfs_by_placement base_folder) = Some placement_map ->
  (exists top,
     In top base_folder /\ top_isdir top = true /\ lower (top_name top) = k /\
     placement_map = placement_map_of (top_entries top) /\
     forall rank,
       Dict.get rank placement_map = last_match rank (top_entries top)) /\
  NoDup (Dict.keys placement_map) /\
  (forall files text,
     first_pdf files = Some text <->
     exists before file after,
       files = (before ++ file :: after)%list /\
       Forall (fun f => is_pdf f = false) before /\
       is_pdf file = true /\ file_text file = text) /\
  (forall files,
     first_pdf files = None <-> Forall (fun f => is_pdf f = false) files).
Proof.
  intros H.
  apply IndexFacts.fold_index_origin in H as [H | [top [Hin [Hd [Hk ->]]]]];
    [discriminate|].
  split; [|split; [|split]].
  - exists top. repeat split; try assumption.
    intros rank. unfold placement_map_of.
    rewrite IndexFacts.get_fold_placement.
    now destruct (last_match rank (top_entries top)).
  - apply IndexFacts.nodup_fold_placement. constructor.
  - apply IndexFacts.first_pdf_some.
  - induction files as [|f files IH]; simpl.
    + split; [constructor | reflexivity].
    + fold (is_pdf f). destruct (is_pdf f) eqn:E.
      * split; [discriminate | intros H; inversion H; congruence].
      * rewrite IH. split; [now constructor | intros H; now inversion H].
Qed.

Lemma placement_map_one_text_per_rank_witness :
  NoDup (Dict.keys [ ("1st", "B") ]%list) /\
  first_pdf (sub_files (mk_sub "Honorable" true ""
                          [ mk_file "c.PDF" "C"; mk_file "d.pdf" "D" ])) =
    Some "C".
Proof.
  split; [|reflexivity].
  apply (placement_map_one_text_per_rank
           [ mk_top "Gtoc5" true two_firsts ]%list "gtoc5"
           [ ("1st", "B") ]%list eq_refl).
Defined.

(** ** The synthesis loop *)

(** C1.  Once the draft and the critique have come back, [create_fake_gtoc]
    has sent the draft request and the critique request, followed by exactly
    one revision request when the score read from the critique is below 70 and
    by none when it is 70 or more.  The score is the number written in digits
    after the first [Score:] label of the critique, white space between them
    allowed.  A critique in which the score pattern finds nothing has score 0,
    and it finds nothing when the label [Score:] does not occur.  No run sends
    more than three requests, so a second revision never happens. *)
Theorem score_gated_revision
    (G : Type) (complete : G -> string -> G * option string)
    (os : G -> os_call -> G * bool)
    (gtoc_number : N) (w : world G) (g1 g2 : G) (draft critique : string) :
  let p1 := draft_prompt gtoc_number (sample w) in
  complete (gateway w) p1 = (g1, Some draft) ->
  let problem_text :=
    fst (marker_split (no_problem, csv_header) (strip draft)) in
  let p2 := xai_prompt problem_text (sample w) in
  complete g1 p2 = (g2, Some critique) ->
  let xai_feedback := strip critique in
  let score := extract_score xai_feedback in
  let sent := requests (fst (create_fake_gtoc complete os gtoc_number w)) in
  ((score < 70)%N ->
     sent = (requests w ++
             [p1; p2; fix_prompt score problem_text (sample w) xai_feedback])%list) /\
  ((70 <= score)%N -> sent = (requests w ++ [p1; p2])%list) /\
  (Re.search score_pat xai_feedback = None -> score = 0%N) /\
  (~ occurs "Score:" xai_feedback ->
     Re.search score_pat xai_feedback = None) /\
  (forall d, score_written xai_feedback d -> score = int d) /\
  (forall n, score_written xai_feedback (of_N n) -> score = n) /\
  List.length sent <= List.length (requests w) + 3.
Proof.
  intros p1 H1 problem_text p2 H2 xai_feedback score sent.
  assert (sent = (requests w ++ [p1; p2] ++
                  if (score <? 70)%N
                  then [fix_prompt score problem_text (sample w) xai_feedback]
                  else [])%list) as Hsent.
  { unfold sent.
    rewrite (RunFacts.create_fake_gtoc_critique complete os gtoc_number w
               g1 g2 draft critique H1 H2).
    rewrite (RunFacts.requests_then_save os _ (fun a => a)).
    rewrite RunFacts.revise_requests. cbn [requests].
    now rewrite <- app_assoc. }
  assert (forall d, score_written xai_feedback d -> score = int d) as Hread.
  { intros d Hd. unfold score, extract_score.
    now rewrite (ReFacts.search_score_written _ _ Hd). }
  repeat split.
  - intros H. apply N.ltb_lt in H. now rewrite Hsent, H.
  - intros H. apply N.ltb_ge in H. now rewrite Hsent, H.
  - intros H. unfold score, extract_score. now rewrite H.
  - intros H. apply ReFacts.search_score_absent.
    now apply StrFacts.contains_false_iff.
  - exact Hread.
  - intros n Hn. rewrite (Hread _ Hn). apply ReFacts.int_of_N.
  - rewrite Hsent. destruct (score <? 70)%N;
      rewrite !length_app; simpl; lia.
Qed.

Lemma score_gated_revision_witness :
  List.length
    (requests
       (fst (create_fake_gtoc scripted obliging 12
               (fresh [ Some draft_with_table; Some "Score: 42";
                        Some "Better." ] nil)))) = 3 /\
  List.length
    (requests
       (fst (create_fake_gtoc scripted obliging 12
               (fresh [ Some draft_with_table; Some "Score: 85";
                        Some "Better." ] nil)))) = 2 /\
  extract_score "Score: 85" = 85%N.
Proof.
  assert (score_written "Score: 85" "85") as Hwritten.
  { exists EmptyString, " ", EmptyString. repeat split.
    - intros a' b' _. simpl. lia.
    - apply ReFacts.all_cons; [reflexivity | apply ReFacts.all_nil].
    - discriminate.
    - repeat (apply ReFacts.all_cons; [reflexivity|]). apply ReFacts.all_nil.
    - intros c r H. discriminate. }
  split; [|split].
  - destruct (score_gated_revision _ scripted obliging 12
                (fresh [ Some draft_with_table; Some "Score: 42";
                         Some "Better." ] nil)
                _ _ draft_with_table "Score: 42" eq_refl eq_refl)
      as [Hlow _].
    rewrite Hlow; [reflexivity | vm_compute; reflexivity].
  - destruct (score_gated_revision _ scripted obliging 12
                (fresh [ Some draft_with_table; Some "Score: 85";
                         Some "Better." ] nil)
                _ _ draft_with_table "Score: 85" eq_refl eq_refl)
      as [_ [Hhigh _]].
    rewrite Hhigh; [reflexivity | vm_compute; discriminate].
  - destruct (score_gated_revision _ scripted obliging 12
                (fresh [ Some draft_with_table; Some "Score: 85";
                         Some "Better." ] nil)
                _ _ draft_with_table "Score: 85" eq_refl eq_refl)
      as [_ [_ [_ [_ [_ [Hn _]]]]]].
    apply (Hn 85%N). exact Hwritten.
Defined.

(** The three critiques of the specification: one revision request after
    [Score: 42], none after [Score: 85], one when there is no label. *)
Example revision_requests_by_critique :
  let run critique :=
    List.length
      (requests
         (fst (create_fake_gtoc scripted obliging 12
                 (fresh [ Some draft_with_table; Some critique;
                          Some "Better." ] nil)))) - 2 in
  run "Score: 42" = 1 /\ run "Score: 85" = 0 /\
  run "Looks fine to me." = 1 /\ run "Score: 70" = 0 /\ run "Score: 69" = 1.
Proof. vm_compute. repeat split. Qed.

(** C2, counterexample.  What follows the marker is trimmed too: the blank
    between the marker and [B] is gone from the table text. *)
Lemma table_remainder_is_trimmed :
  first_occurrence marker "A Target Name B" "A " " B" /\
  marker_split (no_problem, csv_header) "A Target Name B" =
    ("A", "Target NameB") /\
  ~ table_is_marker_and_remainder "A Target Name B".
Proof.
  assert (first_occurrence marker "A Target Name B" "A " " B") as Hfirst.
  { split; [reflexivity|].
    intros [|x [|y a']] b' H; simpl; try lia; discriminate. }
  split; [exact Hfirst|]. split; [reflexivity|].
  intros H. specialize (H _ _ Hfirst). discriminate.
Qed.

(** C2, amended.  When the marker occurs in the draft completion, the
    completion is split at the first occurrence: the problem text is what
    stands before it, trimmed, and the table text is the marker followed by
    what stands after it, trimmed as well.  When the marker does not occur,
    the problem text is the placeholder and the table text is the header row.
    Whatever the completions say, a run of [create_fake_gtoc] whose requests
    are all answered reaches the saving of the files: it ends normally when
    the operating system carries out the calls of that step, and it can only
    raise the error of a refused file operation. *)
Theorem draft_marker_split
    (G : Type) (complete : G -> string -> G * option string)
    (os : G -> os_call -> G * bool)
    (response : string) :
  (forall g prompt, exists g' content, complete g prompt = (g', Some content)) ->
  let texts := marker_split (no_problem, csv_header) response in
  (occurs marker response ->
     exists before after,
       first_occurrence marker response before after /\
       texts = (strip before, marker ++ strip after)) /\
  (~ occurs marker response ->
     texts = ("No problem generated",
              "Target Name,Distance (AU),Delta-V (km/s),Time Window (days)")) /\
  (willing os ->
   forall gtoc_number w,
     snd (create_fake_gtoc complete os gtoc_number w) = Ok tt) /\
  (forall gtoc_number w,
     snd (create_fake_gtoc complete os gtoc_number w) = Ok tt \/
     snd (create_fake_gtoc complete os gtoc_number w) = Raise OSError).
Proof.
  intros Hlive texts.
  assert (forall n w, exists final feedback w2,
             create_fake_gtoc complete os n w =
             save_outputs os n (fst final) (snd final) feedback w2) as Hsave.
  { intros n w.
    destruct (Hlive (gateway w) (draft_prompt n (sample w)))
      as [g1 [draft H1]].
    set (drafted := marker_split (no_problem, csv_header) (strip draft)).
    destruct (Hlive g1 (xai_prompt (fst drafted) (sample w)))
      as [g2 [critique H2]].
    rewrite (RunFacts.create_fake_gtoc_critique complete os n w g1 g2
               draft critique H1 H2).
    fold drafted. set (score := extract_score (strip critique)).
    destruct (N.lt_ge_cases score 70) as [Hs | Hs].
    - destruct (Hlive g2 (fix_prompt score (fst drafted) (sample w)
                            (strip critique))) as [g3 [revision H3]].
      erewrite RunFacts.bind_ok
        by (apply (RunFacts.revise_low_ok complete) with (g := g3)
                    (revision := revision); [exact Hs | exact H3]).
      now eexists _, _, _.
    - erewrite RunFacts.bind_ok by (apply RunFacts.revise_high; exact Hs).
      now eexists _, _, _. }
  split; [|split; [|split]].
  - intros H. apply StrFacts.contains_iff in H.
    destruct (StrFacts.split1_found _ _ H) as [a [b [Hs Hf]]].
    exists a, b. split; [exact Hf|].
    unfold texts, marker_split. now rewrite H, Hs.
  - intros H. apply StrFacts.contains_false_iff in H.
    unfold texts, marker_split. now rewrite H.
  - intros Hos n w. destruct (Hsave n w) as [final [feedback [w2 ->]]].
    destruct (RunFacts.save_outputs_willing os n (fst final) (snd final)
                feedback w2 Hos) as [g ->].
    reflexivity.
  - intros n w. destruct (Hsave n w) as [final [feedback [w2 ->]]].
    destruct (RunFacts.save_outputs_outcome os n (fst final) (snd final)
                feedback w2) as [w' [[-> _] | [-> _]]]; auto.
Qed.

Lemma draft_marker_split_witness :
  marker_split (no_problem, csv_header) draft_with_table =
    ("Intro paragraph.",
     "Target Name,Distance,Delta-V,Time Window" ++ nl ++ "Alpha,1.2,3.4,10") /\
  marker_split (no_problem, csv_header) "I cannot help with that." =
    (no_problem, csv_header) /\
  snd (create_fake_gtoc (always "I cannot help with that.") obliging 12
         (mk_world tt nil nil nil nil)) = Ok tt.
Proof.
  assert (forall g prompt, exists g' content,
             always "I cannot help with that." g prompt = (g', Some content))
    as Hlive by (intros g prompt; now exists g, "I cannot help with that.").
  split; [reflexivity|]. split.
  - apply (proj1 (proj2
             (draft_marker_split unit _ obliging
                "I cannot help with that." Hlive))).
    now apply StrFacts.contains_false_iff.
  - apply (proj1 (proj2 (proj2
             (draft_marker_split unit _ obliging
                "I cannot help with that." Hlive)))).
    intros g call. now exists g.
Defined.

(** C9.  When the score is below 70 and the revision comes back without the
    marker, the run goes on to save the two texts of the draft step,
    unchanged: the files it writes are, in this order, the problem file and
    the data file with the texts of the draft and the feedback file, all three
    when the operating system carries out the calls and the run then ends
    normally.  The texts are the placeholder and the header row only when the
    draft itself had no marker. *)
Theorem revision_without_marker_keeps_draft
    (G : Type) (complete : G -> string -> G * option string)
    (os : G -> os_call -> G * bool)
    (gtoc_number : N) (w : world G) (g1 g2 g3 : G)
    (draft critique revision : string) :
  let p1 := draft_prompt gtoc_number (sample w) in
  complete (gateway w) p1 = (g1, Some draft) ->
  let texts := marker_split (no_problem, csv_header) (strip draft) in
  let p2 := xai_prompt (fst texts) (sample w) in
  complete g1 p2 = (g2, Some critique) ->
  let xai_feedback := strip critique in
  let score := extract_score xai_feedback in
  (score < 70)%N ->
  complete g2 (fix_prompt score (fst texts) (sample w) xai_feedback) =
    (g3, Some revision) ->
  contains marker (strip revision) = false ->
  let run := create_fake_gtoc complete os gtoc_number w in
  (exists w3,
     written w3 = written w /\
     run = save_outputs os gtoc_number (fst texts) (snd texts) xai_feedback w3) /\
  (exists k,
     k <= 3 /\
     written (fst run) =
       (written w ++
        firstn k (outputs gtoc_number (fst texts) (snd texts) xai_feedback))%list) /\
  (willing os ->
   snd run = Ok tt /\
   written (fst run) =
     (written w ++ outputs gtoc_number (fst texts) (snd texts) xai_feedback)%list) /\
  marker_split texts (strip revision) = texts /\
  (contains marker (strip draft) = false -> texts = (no_problem, csv_header)).
Proof.
  intros p1 H1 texts p2 H2 xai_feedback score Hs H3 Hm run.
  assert (marker_split texts (strip revision) = texts) as Hkeep
    by (unfold marker_split at 1; now rewrite Hm).
  assert (exists w3,
             written w3 = written w /\
             run = save_outputs os gtoc_number (fst texts) (snd texts)
                     xai_feedback w3) as [w3 [Hw3 Hrun]].
  { unfold run.
    rewrite (RunFacts.create_fake_gtoc_critique complete os gtoc_number w
               g1 g2 draft critique H1 H2).
    fold texts xai_feedback score.
    erewrite RunFacts.bind_ok
      by (apply (RunFacts.revise_low_ok complete) with (g := g3)
                  (revision := revision); [exact Hs | exact H3]).
    rewrite <- surjective_pairing, Hkeep.
    eexists. split; [|reflexivity]. reflexivity. }
  split; [now exists w3|]. rewrite Hrun. split; [|split; [|split]].
  - destruct (RunFacts.save_outputs_outcome os gtoc_number (fst texts)
                (snd texts) xai_feedback w3)
      as [w' [[-> Hw] | [-> [k [Hk Hw]]]]]; cbn [fst].
    + exists 3. split; [lia|]. now rewrite Hw, Hw3.
    + exists k. split; [lia|]. now rewrite Hw, Hw3.
  - intros Hos.
    destruct (RunFacts.save_outputs_willing os gtoc_number (fst texts)
                (snd texts) xai_feedback w3 Hos) as [g ->].
    cbn [fst snd written]. now rewrite Hw3.
  - exact Hkeep.
  - intros Hd. unfold texts, marker_split. now rewrite Hd.
Qed.

Lemma revision_without_marker_keeps_draft_witness :
  written
    (fst (create_fake_gtoc scripted obliging 12
            (fresh [ Some draft_with_table; Some "Score: 10";
                     Some "Sorry, no table this time." ] nil))) =
  outputs 12 "Intro paragraph."
    ("Target Name,Distance,Delta-V,Time Window" ++ nl ++ "Alpha,1.2,3.4,10")
    "Score: 10".
Proof.
  destruct (revision_without_marker_keeps_draft _ scripted obliging 12
              (fresh [ Some draft_with_table; Some "Score: 10";
                       Some "Sorry, no table this time." ] nil)
              [ Some "Score: 10"; Some "Sorry, no table this time." ]
              [ Some "Sorry, no table this time." ] nil
              draft_with_table "Score: 10" "Sorry, no table this time."
              eq_refl eq_refl)
    as [_ [_ [Hw _]]];
    [ vm_compute; reflexivity | reflexivity | reflexivity | ].
  destruct Hw as [_ Hw]; [intros g call; now exists g|].
  rewrite Hw. reflexivity.
Defined.

(** ** The session loop *)

(** C3.  When the line holds a generation request and the key of its event
    number is in the index, the loop body takes the arm that prints
    [already exists]: nothing else happens in the world, no request is sent
    and no file is written, while a call of [create_fake_gtoc] always sends
    one request or more.  The arm that calls [create_fake_gtoc] is taken only
    for a generation request whose key is not in the index.  The session loop
    goes on to the next line with the message printed and nothing else
    changed. *)
Theorem existing_event_is_not_generated
    (G : Type) (complete : G -> string -> G * option string)
    (os : G -> os_call -> G * bool)
    (gtoc_data : CorpusIndex) (user_input : string) (g : option string)
    (w : world G) :
  Re.search gen_pat (lower user_input) = Some g ->
  let future_gtoc := int (group1 g) in
  Dict.mem (event_key future_gtoc) gtoc_data = true ->
  let after := fst (perform complete os (route gtoc_data user_input) w) in
  route gtoc_data user_input = AlreadyExists future_gtoc /\
  perform complete os (route gtoc_data user_input) w =
    print ("GTOC" ++ of_N future_gtoc ++ " already exists.") w /\
  requests after = requests w /\
  written after = written w /\
  (forall n, requests (fst (create_fake_gtoc complete os n w)) <> requests w) /\
  (forall line n,
     route gtoc_data line = Generate n ->
     Dict.mem (event_key n) gtoc_data = false) /\
  (forall rest,
     chat_loop complete os gtoc_data (user_input :: rest) w =
     chat_loop complete os gtoc_data rest
       (mk_world (gateway w) (disk w) (requests w)
          (stdout w ++
           ["You: ";
            ("GTOC" ++ of_N future_gtoc ++ " already exists.")%string])%list
          (written w))).
Proof.
  intros H future_gtoc Hmem after.
  assert (route gtoc_data user_input = AlreadyExists future_gtoc) as Hr.
  { rewrite (SessionFacts.route_generation _ _ _ H).
    fold future_gtoc. now rewrite Hmem. }
  unfold after. rewrite Hr. repeat split.
  - intros n E.
    destruct (RunFacts.create_fake_gtoc_requests complete os n w)
      as [extra [Hx _]].
    rewrite Hx in E. apply (f_equal (@List.length string)) in E.
    rewrite length_app in E. simpl in E. lia.
  - intros line n Hg. now apply SessionFacts.route_generate_inv in Hg.
  - intros rest.
    rewrite SessionFacts.chat_loop_line
      by (apply (SessionFacts.generation_line_not_exit _ g H)).
    rewrite Hr. unfold bind, perform, print.
    cbn [gateway disk requests stdout written]. now rewrite <- app_assoc.
Qed.

Lemma existing_event_is_not_generated_witness :
  route index5 "Please create GTOC5 for me" = AlreadyExists 5.
Proof.
  apply (existing_event_is_not_generated (list (option string)) scripted obliging index5
           "Please create GTOC5 for me" (Some "5") (fresh nil nil)).
  - reflexivity.
  - reflexivity.
Defined.

(** C10.  When the line holds a generation request for an event number of
    100 or more whose key is not in the index, the loop body calls
    [create_fake_gtoc] for that number, and so does the session loop before
    it reads the next line: the limit of 99 is not consulted on this path. *)
Theorem generation_ignores_cap
    (G : Type) (complete : G -> string -> G * option string)
    (os : G -> os_call -> G * bool)
    (gtoc_data : CorpusIndex) (user_input : string) (g : option string)
    (w : world G) :
  Re.search gen_pat (lower user_input) = Some g ->
  let future_gtoc := int (group1 g) in
  (100 <= future_gtoc)%N ->
  Dict.mem (event_key future_gtoc) gtoc_data = false ->
  route gtoc_data user_input = Generate future_gtoc /\
  perform complete os (route gtoc_data user_input) w =
    create_fake_gtoc complete os future_gtoc w /\
  (forall rest,
     chat_loop complete os gtoc_data (user_input :: rest) w =
     bind (create_fake_gtoc complete os future_gtoc)
          (fun _ => chat_loop complete os gtoc_data rest)
          (mk_world (gateway w) (disk w) (requests w)
             (stdout w ++ ["You: "])%list (written w))).
Proof.
  intros H future_gtoc _ Hmem.
  assert (route gtoc_data user_input = Generate future_gtoc) as Hr.
  { rewrite (SessionFacts.route_generation _ _ _ H).
    fold future_gtoc. now rewrite Hmem. }
  rewrite Hr. repeat split.
  intros rest.
  rewrite SessionFacts.chat_loop_line
    by (apply (SessionFacts.generation_line_not_exit _ g H)).
  now rewrite Hr.
Qed.

Lemma generation_ignores_cap_witness :
  route index5 "make gtoc 100" = Generate 100 /\
  parse_gtoc_request "make gtoc 100" = (None, None).
Proof.
  split; [|reflexivity].
  apply (generation_ignores_cap (list (option string)) scripted obliging index5
           "make gtoc 100" (Some "100") (fresh nil nil)).
  - reflexivity.
  - vm_compute. discriminate.
  - reflexivity.
Defined.

(** C5.  When the event number read from the line is 100 or more,
    [parse_gtoc_request] returns no event key and no rank key; the prompt of
    the answering path is then the one over the whole index, not one scoped to
    an event. *)
Theorem event_number_cap
    (gtoc_data : CorpusIndex) (user_input : string) (g : option string) :
  Re.search gtoc_pat (lower user_input) = Some g ->
  (100 <= int (group1 g))%N ->
  parse_gtoc_request user_input = (None, None) /\
  answer_prompt gtoc_data user_input = global_prompt gtoc_data user_input /\
  (Re.search gen_pat (lower user_input) = None ->
   route gtoc_data user_input = Answer (global_prompt gtoc_data user_input)).
Proof.
  intros H Hn.
  assert (parse_gtoc_request user_input = (None, None)) as Hp.
  { unfold parse_gtoc_request. rewrite H.
    assert ((99 <? int (group1 g))%N = true) as -> by (apply N.ltb_lt; lia).
    reflexivity. }
  assert (answer_prompt gtoc_data user_input =
          global_prompt gtoc_data user_input) as Ha
    by (unfold answer_prompt; now rewrite Hp).
  repeat split; [exact Hp | exact Ha |].
  intros Hg. now rewrite SessionFacts.route_answer, Ha.
Qed.

Lemma event_number_cap_witness :
  parse_gtoc_request "Who won GTOC 100, first place?" = (None, None) /\
  parse_gtoc_request "Who won GTOC 99, first place?" =
    (Some "gtoc99", Some "1st").
Proof.
  split; [|reflexivity].
  apply (event_number_cap index5 "Who won GTOC 100, first place?" (Some "100")).
  - reflexivity.
  - vm_compute. discriminate.
Defined.

(** C7.  When the line names no event, the prompt is the opening line, the
    context, and the question.  The context is the first 3000 characters of
    the labeled excerpts of all (event, rank) pairs of the index, taken in
    iteration order; an excerpt carries the first 500 characters of its
    document, and the whole document when it is no longer.  When the excerpts
    together are longer than 3000 characters the context is exactly 3000
    characters long, and it is never longer. *)
Theorem global_context_truncated
    (gtoc_data : CorpusIndex) (user_input : string) :
  fst (parse_gtoc_request user_input) = None ->
  answer_prompt gtoc_data user_input =
    "Based on all known GTOCs:" ++ nl ++ nl ++ global_context gtoc_data ++
    nl ++ nl ++ "User's question: " ++ user_input /\
  global_context gtoc_data = take 3000 (excerpts gtoc_data) /\
  (forall g_key place txt,
     excerpt g_key place txt =
       upper g_key ++ " " ++ upper place ++ ":" ++ nl ++
       take 500 txt ++ nl ++ nl /\
     String.length (take 500 txt) <= 500 /\
     (String.length txt <= 500 -> take 500 txt = txt)) /\
  (3000 < String.length (excerpts gtoc_data) ->
   String.length (global_context gtoc_data) = 3000) /\
  String.length (global_context gtoc_data) <= 3000.
Proof.
  intros H. split; [|split; [|split; [|split]]].
  - unfold answer_prompt.
    destruct (parse_gtoc_request user_input) as [gtoc_key placement_key].
    simpl in H. subst gtoc_key. reflexivity.
  - unfold global_context. now rewrite SessionFacts.all_text_excerpts.
  - intros g_key place txt. split; [reflexivity|]. split.
    + apply StrFacts.length_take_le.
    + apply SessionFacts.take_all.
  - intros Hlong. unfold global_context.
    rewrite SessionFacts.all_text_excerpts, StrFacts.length_take. lia.
  - apply StrFacts.length_take_le.
Qed.

Lemma global_context_truncated_witness :
  String.length (excerpts long_index) = 3591 /\
  String.length (global_context long_index) = 3000 /\
  route long_index "Which GTOC had the hardest problem?" =
    Answer (global_prompt long_index "Which GTOC had the hardest problem?").
Proof.
  split; [vm_compute; reflexivity|]. split; [|reflexivity].
  apply (global_context_truncated long_index
           "Which GTOC had the hardest problem?" eq_refl).
  apply Nat.ltb_lt. vm_compute. reflexivity.
Defined.

(** * Further properties of the program *)

(** ** Vocabulary *)

Module MoreNotions.

Import Str Notions.

(** An entry of an event folder that [load_past_problem_statements] reads:
    a name ending in [.pdf] that holds [-problem], in any letter case, and a
    text that is not empty. *)
Definition is_problem_file (file : sub_entry) : Prop :=
  endswith (lower (sub_name file)) ".pdf" = true /\
  contains "-problem" (lower (sub_name file)) = true /\
  sub_text file <> EmptyString.

(** The snippet kept of a text: lines 73. *)
Definition snippet_of (text : string) : string :=
  take 1000 (replace_char "010" " " (strip text)).

(** The four rank keys. *)
Definition rank_keys : list string := [ "1st"; "2nd"; "3rd"; "other" ]%list.

(** The placement map the event key [k] holds when every event folder that
    brings a non-empty map under that key replaces what was there. *)
Fixpoint last_event (k : string) (base : tree) : option PlacementMap :=
  match base with
  | nil => None
  | cons top rest =>
      match last_event k rest with
      | Some pm => Some pm
      | None =>
          if top_isdir top && String.eqb k (lower (top_name top)) then
            match placement_map_of (top_entries top) with
            | nil => None
            | pm => Some pm
            end
          else None
      end
  end.

(** The line that ends the session: line 211. *)
Definition is_exit (user_input : string) : bool :=
  String.eqb (lower user_input) "exit".

(** The world after [input] has shown its prompt. *)
Definition prompted {G} (w : world G) : world G :=
  mk_world (gateway w) (disk w) (requests w) (stdout w ++ ["You: "])%list
    (written w).

(** The world after the greeting of [start_chatbot]. *)
Definition greeted {G} (w : world G) : world G :=
  mk_world (gateway w) (disk w) (requests w)
    (stdout w ++ [ "Chatbot ready! Type 'exit' to quit." ])%list (written w).



End MoreNotions.

(** ** More facts about strings *)

Module MoreStrFacts.

Import Str Notions StrFacts ReFacts.

Lemma all_app (p : ascii -> bool) (s t : string) :
  all p s -> all p t -> all p (s ++ t).
Proof.
  induction s as [|c s IH]; simpl; intros Hs Ht; [exact Ht|].
  apply all_cons.
  - apply (Hs EmptyString s c). reflexivity.
  - apply IH; [|exact Ht].
    intros a b x E. apply (Hs (String c a) b x). simpl. now rewrite E.
Qed.

Lemma all_tail (p : ascii -> bool) (c : ascii) (s : string) :
  all p (String c s) -> p c = true /\ all p s.
Proof.
  intros H. split.
  - apply (H EmptyString s c). reflexivity.
  - intros a b x E. apply (H (String c a) b x). simpl. now rewrite E.
Qed.

Lemma all_map (p : ascii -> bool) (f : ascii -> ascii) (s : string) :
  (forall c, p (f c) = true) -> all p (map f s).
Proof.
  intros H. induction s as [|c s IH]; simpl;
    [apply all_nil | now apply all_cons].
Qed.

Lemma all_take (p : ascii -> bool) (n : nat) (s : string) :
  all p s -> all p (take n s).
Proof.
  revert s; induction n as [|n IH]; intros [|c s] H; simpl;
    try apply all_nil.
  apply all_tail in H as [Hc Hs]. apply all_cons; auto.
Qed.

Lemma replace_line_feed (s : string) :
  all not_newline (replace_char "010" " " s).
Proof.
  apply all_map. intros c. destruct (Ascii.eqb c "010") eqn:E.
  - reflexivity.
  - unfold not_newline, code. apply negb_true_iff, N.eqb_neq.
    intros H. apply Ascii.eqb_neq in E. apply E.
    rewrite <- (ascii_N_embedding c), H. reflexivity.
Qed.

Lemma length_join_le (sep : string) (m : nat) (xs : list string) :
  Forall (fun x => String.length x <= m) xs ->
  String.length (join sep xs) <=
  List.length xs * m + (List.length xs - 1) * String.length sep.
Proof.
  induction 1 as [|x xs Hx Hxs IH]; simpl; [lia|].
  destruct xs as [|y xs]; [simpl; lia|].
  rewrite !length_app. simpl in IH |- *. lia.
Qed.

Lemma in_firstn {A} (n : nat) (x : A) (l : list A) :
  In x (firstn n l) -> In x l.
Proof.
  revert l; induction n as [|n IH]; intros [|y l]; simpl; try contradiction.
  intros [-> | H]; [now left | right; now apply IH].
Qed.

Lemma past_problem_is_snippet (base_folder : tree) (snippet : string) :
  In snippet (load_past_problem_statements base_folder) ->
  exists text, snippet = MoreNotions.snippet_of text.
Proof.
  unfold load_past_problem_statements. rewrite in_flat_map.
  intros [folder [_ H]].
  destruct (top_isdir folder); simpl in H; [|contradiction].
  apply in_flat_map in H as [file [_ H]]. unfold problem_snippet in H.
  destruct (endswith _ _ && contains _ _); [|contradiction].
  destruct (nonempty (sub_text file)); [|contradiction].
  destruct H as [<- | []]. now exists (sub_text file).
Qed.

Lemma snippet_bounded (text : string) :
  String.length (MoreNotions.snippet_of text) <= 1000 /\
  all not_newline (MoreNotions.snippet_of text).
Proof.
  unfold MoreNotions.snippet_of. split.
  - apply length_take_le.
  - apply all_take, replace_line_feed.
Qed.

End MoreStrFacts.

(** ** More inputs for the examples *)

Module MoreSamples.

Import Str Notions.

(** A base folder whose events keep their problem statement beside the
    placement folders. *)
Definition with_problems : tree :=
  [ mk_top "Gtoc5" true
      [ mk_sub "GTOC5-Problem.PDF" false
          (" A spacecraft" ++ nl ++ "visits asteroids. ") nil;
        mk_sub "1st-place" true "" [ mk_file "GTOC5-problem.pdf" "hidden" ] ];
    mk_top "Gtoc6" true
      [ mk_sub "gtoc6-problem.pdf" false "Error reading PDF: damaged" nil;
        mk_sub "problem.pdf" false "no separator" nil;
        mk_sub "gtoc6-problem.txt" false "not a document" nil ];
    mk_top "gtoc7-problem.pdf" false nil ]%list.

End MoreSamples.

(** ** The past problem statements *)

Import MoreNotions.

(** X1.  A snippet is in the list of past problem statements exactly when
    it is the snippet of an entry of an event folder, one level below the
    base folder, whose name ends in [.pdf] and holds [-problem] in any letter
    case and whose text is not empty.  Entries of the base folder that are not
    folders and the files of the placement folders are never read. *)
Theorem past_problems_membership (base_folder : tree) (snippet : string) :
  In snippet (load_past_problem_statements base_folder) <->
  exists folder file,
    In folder base_folder /\ top_isdir folder = true /\
    In file (top_entries folder) /\ is_problem_file file /\
    snippet = snippet_of (sub_text file).
Proof.
  unfold load_past_problem_statements. rewrite in_flat_map. split.
  - intros [folder [Hin H]].
    destruct (top_isdir folder) eqn:Ed; simpl in H; [|contradiction].
    apply in_flat_map in H as [file [Hf H]].
    unfold problem_snippet in H.
    destruct (endswith (lower (sub_name file)) ".pdf") eqn:E1;
      simpl in H; [|contradiction].
    destruct (contains "-problem" (lower (sub_name file))) eqn:E2;
      simpl in H; [|contradiction].
    destruct (sub_text file) as [|c t] eqn:Et; simpl in H; [contradiction|].
    destruct H as [<- | []].
    exists folder, file. repeat split; auto.
    + rewrite Et. discriminate.
    + now rewrite Et.
  - intros [folder [file [Hin [Ed [Hf [[E1 [E2 Ht]] ->]]]]]].
    exists folder. split; [exact Hin|]. rewrite Ed. simpl.
    apply in_flat_map. exists file. split; [exact Hf|].
    unfold problem_snippet. rewrite E1, E2. simpl.
    destruct (sub_text file); [contradiction | now left].
Qed.

(** X2.  Every past problem statement is at most 1000 characters long and
    holds no line feed. *)
Theorem past_problems_bounded (base_folder : tree) (snippet : string) :
  In snippet (load_past_problem_statements base_folder) ->
  String.length snippet <= 1000 /\ Notions.all not_newline snippet.
Proof.
  intros H. apply MoreStrFacts.past_problem_is_snippet in H as [text ->].
  apply MoreStrFacts.snippet_bounded.
Qed.

Lemma past_problems_bounded_witness :
  load_past_problem_statements MoreSamples.with_problems =
    [ "A spacecraft visits asteroids."; "Error reading PDF: damaged" ]%list /\
  String.length "A spacecraft visits asteroids." <= 1000.
Proof.
  split; [reflexivity|].
  apply (past_problems_bounded MoreSamples.with_problems
           "A spacecraft visits asteroids.").
  left. reflexivity.
Defined.

(** X3.  The style sample is built from the first five past problem
    statements only, and it is never longer than 5008 characters (five
    snippets and four separators), however large the corpus. *)
Theorem style_sample_bounded (base_folder : tree) :
  let past_problems_list := load_past_problem_statements base_folder in
  String.length (sample_of past_problems_list) <= 5 * 1000 + 4 * 2 /\
  (forall more, 5 <= List.length past_problems_list ->
     sample_of (past_problems_list ++ more) = sample_of past_problems_list).
Proof.
  intros l. split.
  - unfold sample_of.
    assert (Forall (fun x => String.length x <= 1000) (firstn 5 l)) as Hall.
    { apply Forall_forall. intros x Hx.
      apply MoreStrFacts.in_firstn in Hx.
      apply MoreStrFacts.past_problem_is_snippet in Hx as [text ->].
      apply MoreStrFacts.snippet_bounded. }
    pose proof (MoreStrFacts.length_join_le (nl ++ nl) 1000 _ Hall) as Hj.
    pose proof (firstn_le_length 5 l) as H5.
    change (String.length (nl ++ nl)) with 2 in Hj.
    change (String.length (join (nl ++ nl) (firstn 5 l)) <= 5 * 1000 + 4 * 2).
    lia.
  - intros more H. unfold sample_of. rewrite firstn_app.
    replace (5 - List.length l) with 0 by lia.
    now rewrite app_nil_r.
Qed.

(** ** More facts about the index *)

Module MoreIndexFacts.

Import Str Notions MoreNotions StrFacts DictFacts IndexFacts.

Lemma lower_char_idem (c : ascii) : lower_char (lower_char c) = lower_char c.
Proof. destruct c as [[] [] [] [] [] [] [] []]; reflexivity. Qed.

Lemma lower_idem (s : string) : lower (lower s) = lower s.
Proof.
  unfold lower. induction s as [|c s IH]; simpl; [reflexivity|].
  now rewrite lower_char_idem, IH.
Qed.

Lemma placement_of_rank (subfolder : string) :
  In (placement_of subfolder) rank_keys.
Proof.
  unfold placement_of, rank_keys.
  destruct (contains "1st" _); [simpl; auto|].
  destruct (contains "2nd" _); [simpl; auto|].
  destruct (contains "3rd" _); simpl; auto.
Qed.

Lemma contribution_rank (sub : sub_entry) (k text : string) :
  contribution sub = Some (k, text) -> In k rank_keys.
Proof.
  unfold contribution. destruct (sub_isdir sub); [|discriminate].
  destruct (first_pdf (sub_files sub)); [|discriminate].
  intros H; injection H as <- _. apply placement_of_rank.
Qed.

Lemma keys_fold_placement (subs : list sub_entry) :
  forall pm,
    incl (Dict.keys pm) rank_keys ->
    incl (Dict.keys (fold_left placement_step subs pm)) rank_keys.
Proof.
  induction subs as [|sub rest IH]; intros pm H; simpl; [exact H|].
  apply IH. rewrite placement_step_contribution.
  destruct (contribution sub) as [[k text]|] eqn:E; [|exact H].
  intros x Hx. apply keys_set_in in Hx as [-> | Hx].
  - now apply contribution_rank in E.
  - now apply H.
Qed.

Lemma get_fold_index (k : string) (base : tree) :
  forall idx,
    Dict.get k (fold_left index_step base idx) =
    match last_event k base with
    | Some pm => Some pm
    | None => Dict.get k idx
    end.
Proof.
  induction base as [|top rest IH]; intros idx; simpl; [reflexivity|].
  rewrite IH. destruct (last_event k rest); [reflexivity|].
  rewrite index_step_cases.
  destruct (top_isdir top); simpl; [|reflexivity].
  destruct (placement_map_of (top_entries top)) as [|e pm] eqn:E.
  - now destruct (String.eqb k (lower (top_name top))).
  - rewrite get_set. now destruct (String.eqb k (lower (top_name top))).
Qed.

End MoreIndexFacts.

(** ** The index *)

(** X4.  A placement map of the index has its keys among [1st], [2nd],
    [3rd] and [other], so it never holds more than four texts. *)
Theorem index_rank_keys
    (base_folder : tree) (k : string) (placement_map : PlacementMap) :
  Dict.get k (load_gtoc_pdfs_by_placement base_folder) = Some placement_map ->
  (forall rank, Dict.mem rank placement_map = true -> In rank rank_keys) /\
  List.length placement_map <= 4.
Proof.
  intros H.
  apply IndexFacts.fold_index_origin in H as [H | [top [_ [_ [_ ->]]]]];
    [discriminate|].
  assert (incl (Dict.keys (placement_map_of (top_entries top))) rank_keys)
    as Hincl
    by (apply MoreIndexFacts.keys_fold_placement; intros x []).
  split.
  - intros rank Hm. apply Hincl. unfold Dict.mem in Hm.
    destruct (Dict.get rank (placement_map_of (top_entries top)))
      as [text|] eqn:E; [|discriminate].
    clear Hm Hincl. induction (placement_map_of (top_entries top))
      as [|[k0 v0] d IH]; simpl in *; [discriminate|].
    destruct (String.eqb rank k0) eqn:Ek.
    + left. apply String.eqb_eq in Ek. now symmetry.
    + right. now apply IH.
  - assert (NoDup (Dict.keys (placement_map_of (top_entries top)))) as Hnd
      by (apply IndexFacts.nodup_fold_placement; constructor).
    pose proof (NoDup_incl_length Hnd Hincl) as Hl.
    unfold Dict.keys in Hl. rewrite length_map in Hl. exact Hl.
Qed.

Lemma index_rank_keys_witness :
  List.length [ ("1st", "A"); ("other", "C") ]%list <= 4.
Proof.
  apply (index_rank_keys one_event "gtoc5"
           [ ("1st", "A"); ("other", "C") ]%list eq_refl).
Defined.

(** X5.  Every event key of the index is the lowercased name of a folder of
    the base folder, and is itself in lower case. *)
Theorem index_keys_lowercase
    (base_folder : tree) (k : string) (placement_map : PlacementMap) :
  Dict.get k (load_gtoc_pdfs_by_placement base_folder) = Some placement_map ->
  lower k = k /\
  exists top,
    In top base_folder /\ top_isdir top = true /\ k = lower (top_name top).
Proof.
  intros H.
  apply IndexFacts.fold_index_origin in H as [H | [top [Hin [Hd [Hk _]]]]];
    [discriminate|].
  split.
  - rewrite <- Hk. apply MoreIndexFacts.lower_idem.
  - exists top. auto.
Qed.

Lemma index_keys_lowercase_witness : lower "gtoc5" = "gtoc5".
Proof.
  apply (index_keys_lowercase one_event "gtoc5"
           [ ("1st", "A"); ("other", "C") ]%list eq_refl).
Defined.

(** X6.  Looking an event key up in the index gives the placement map of
    the last folder of the base folder, in traversal order, whose lowercased
    name is the key and whose placement map is not empty; the key is absent
    when there is no such folder.  Two folders whose names differ only in
    letter case share a key, and the later one replaces the earlier. *)
Theorem index_lookup_last_event (base_folder : tree) (k : string) :
  Dict.get k (load_gtoc_pdfs_by_placement base_folder) =
  last_event k base_folder /\
  (forall top,
     top_isdir top = true ->
     placement_map_of (top_entries top) <> nil ->
     Dict.get (lower (top_name top))
       (load_gtoc_pdfs_by_placement (base_folder ++ [ top ])%list) =
     Some (placement_map_of (top_entries top))).
Proof.
  assert (forall base k', Dict.get k' (load_gtoc_pdfs_by_placement base) =
                          last_event k' base) as Hget.
  { intros base k'. unfold load_gtoc_pdfs_by_placement.
    rewrite MoreIndexFacts.get_fold_index. now destruct (last_event k' base). }
  split; [apply Hget|].
  intros top Hd Hne. rewrite Hget.
  induction base_folder as [|t rest IH]; simpl.
  - rewrite Hd, String.eqb_refl. simpl.
    destruct (placement_map_of (top_entries top)); [contradiction|reflexivity].
  - now rewrite IH.
Qed.

(** ** More facts about parsing and splitting *)

Module MoreParseFacts.

Import Str Notions MoreNotions StrFacts ReFacts.

Lemma prefix_capture (l s : string) :
  startswith l s = true ->
  take (String.length s - String.length (drop (String.length l) s)) s = l.
Proof.
  intros H. apply startswith_iff in H as [b ->].
  rewrite drop_app. apply take_app_length.
Qed.

(** The six words the rank pattern can capture. *)
Definition rank_words : list string :=
  [ "1st"; "first"; "2nd"; "second"; "3rd"; "third" ]%list.

Lemma match_place_word (s : string) (g : option string) :
  Re.match_at place_pat s = Some g ->
  exists word, In word rank_words /\ g = Some word.
Proof.
  unfold Re.match_at, place_pat. cbn [Re.run].
  destruct (startswith "1st" s) eqn:E1.
  { intros H; injection H as <-. exists "1st".
    split; [simpl; auto 10 | f_equal; exact (prefix_capture "1st" s E1)]. }
  destruct (startswith "first" s) eqn:E2.
  { intros H; injection H as <-. exists "first".
    split; [simpl; auto 10 | f_equal; exact (prefix_capture "first" s E2)]. }
  destruct (startswith "2nd" s) eqn:E3.
  { intros H; injection H as <-. exists "2nd".
    split; [simpl; auto 10 | f_equal; exact (prefix_capture "2nd" s E3)]. }
  destruct (startswith "second" s) eqn:E4.
  { intros H; injection H as <-. exists "second".
    split; [simpl; auto 10 | f_equal; exact (prefix_capture "second" s E4)]. }
  destruct (startswith "3rd" s) eqn:E5.
  { intros H; injection H as <-. exists "3rd".
    split; [simpl; auto 10 | f_equal; exact (prefix_capture "3rd" s E5)]. }
  destruct (startswith "third" s) eqn:E6; [|discriminate].
  intros H; injection H as <-. exists "third".
    split; [simpl; auto 10 | f_equal; exact (prefix_capture "third" s E6)].
Qed.

Lemma placement_key_canonical (user_input p : string) :
  placement_key_of user_input = Some p ->
  In p [ "1st"; "2nd"; "3rd" ]%list.
Proof.
  unfold placement_key_of.
  destruct (Re.search place_pat (lower user_input)) as [g|] eqn:E;
    [|discriminate].
  apply search_inv in E as [a [b [_ E]]].
  apply match_place_word in E as [word [Hin ->]]. simpl.
  unfold rank_words in Hin. simpl in Hin.
  destruct Hin as [<- | [<- | [<- | [<- | [<- | [<- | []]]]]]]; simpl;
    intros H; injection H as <-; auto.
Qed.



Lemma startswith_app (p x : string) : startswith p (p ++ x) = true.
Proof. apply startswith_iff. now exists x. Qed.

Lemma marker_split_table (current : string * string) (response : string) :
  startswith marker (snd current) = true ->
  startswith marker (snd (marker_split current response)) = true.
Proof.
  intros H. unfold marker_split.
  destruct (contains marker response); [|exact H].
  cbn [snd]. apply startswith_app.
Qed.

Lemma lstrip_tail (s : string) : exists l, s = l ++ lstrip s.
Proof.
  induction s as [|c s [l IH]]; simpl.
  - now exists EmptyString.
  - destruct (is_space c).
    + exists (String c l). simpl. now rewrite <- IH.
    + now exists EmptyString.
Qed.

Lemma rstrip_head (s : string) : exists r, s = rstrip s ++ r.
Proof.
  induction s as [|c s [r IH]]; simpl.
  - now exists EmptyString.
  - destruct (rstrip s) as [|x t] eqn:E.
    + destruct (is_space c).
      * now exists (String c s).
      * exists s. reflexivity.
    + exists r. simpl in IH |- *. now rewrite <- IH.
Qed.

(** Trimming keeps a stretch of the text. *)
Lemma strip_inside (s : string) : exists l r, s = l ++ strip s ++ r.
Proof.
  unfold strip. destruct (lstrip_tail s) as [l Hl].
  destruct (rstrip_head (lstrip s)) as [r Hr].
  exists l, r. now rewrite <- Hr.
Qed.

Lemma rstrip_idem (s : string) : rstrip (rstrip s) = rstrip s.
Proof.
  induction s as [|c s IH]; simpl; [reflexivity|].
  destruct (rstrip s) as [|x t] eqn:E.
  - destruct (is_space c) eqn:Ec; simpl; [reflexivity | now rewrite Ec].
  - change (rstrip (String c (String x t)))
      with (match rstrip (String x t) with
            | EmptyString =>
                if is_space c then EmptyString else String c EmptyString
            | String y r => String c (String y r)
            end).
    now rewrite IH.
Qed.

Lemma lstrip_fixed (c : ascii) (s : string) :
  is_space c = false -> lstrip (String c s) = String c s.
Proof. intros H. simpl. now rewrite H. Qed.

Lemma lstrip_head (s : string) :
  lstrip s = EmptyString \/
  exists c t, lstrip s = String c t /\ is_space c = false.
Proof.
  induction s as [|c s IH]; simpl; [now left|].
  destruct (is_space c) eqn:E; [exact IH|]. right. now exists c, s.
Qed.

Lemma strip_idem (s : string) : strip (strip s) = strip s.
Proof.
  unfold strip.
  destruct (lstrip_head s) as [-> | [c [t [-> Hc]]]]; [reflexivity|].
  assert (exists t', rstrip (String c t) = String c t') as [t' Ht].
  { simpl. destruct (rstrip t); [rewrite Hc|]; eauto. }
  rewrite Ht, (lstrip_fixed c t' Hc), <- Ht. apply rstrip_idem.
Qed.

End MoreParseFacts.

(** ** Parsing and splitting *)

(** X7.  The event key returned by [parse_gtoc_request] is [gtoc] followed
    by a number from 0 to 99 written without leading zeros, and it is returned
    whenever the number read from the line is 99 or less.  The rank key
    returned is one of [1st], [2nd] and [3rd]: the words [first], [second] and
    [third] are mapped to them, and [other] is never asked for. *)
Theorem parse_gtoc_request_keys (user_input : string) :
  (forall k,
     fst (parse_gtoc_request user_input) = Some k ->
     exists n, (n <= 99)%N /\ k = event_key n) /\
  (forall g,
     Re.search gtoc_pat (lower user_input) = Some g ->
     (int (group1 g) <= 99)%N ->
     fst (parse_gtoc_request user_input) = Some (event_key (int (group1 g)))) /\
  (forall p,
     snd (parse_gtoc_request user_input) = Some p ->
     In p [ "1st"; "2nd"; "3rd" ]%list).
Proof.
  unfold parse_gtoc_request.
  destruct (Re.search gtoc_pat (lower user_input)) as [g|] eqn:E.
  - destruct (99 <? int (group1 g))%N eqn:Hn; cbn [fst snd].
    + repeat split; try discriminate.
      intros g' Hg' Hle. injection Hg' as <-.
      apply N.ltb_lt in Hn. lia.
    + apply N.ltb_ge in Hn. repeat split.
      * intros k Hk. injection Hk as <-. now exists (int (group1 g)).
      * intros g' Hg' _. now injection Hg' as <-.
      * apply MoreParseFacts.placement_key_canonical.
  - cbn [fst snd]. repeat split; try discriminate.
    apply MoreParseFacts.placement_key_canonical.
Qed.

(** X8.  When the marker occurs in a completion, the problem text taken
    from it does not hold the marker any more, and the table text begins with
    the marker. *)
Theorem problem_text_without_marker
    (current : string * string) (response : string) :
  contains marker response = true ->
  ~ occurs marker (fst (marker_split current response)) /\
  startswith marker (snd (marker_split current response)) = true.
Proof.
  intros H. destruct (StrFacts.split1_found _ _ H) as [a [b [Hs [Hocc Hmin]]]].
  unfold marker_split. rewrite H, Hs. cbn [fst snd item nth]. split.
  - intros [x [y Hxy]]. unfold occurs_at in Hxy, Hocc.
    destruct (MoreParseFacts.strip_inside a) as [l [r Ha]].
    rewrite Hxy in Ha.
    assert (occurs_at marker response (l ++ x) (y ++ r ++ marker ++ b)) as Ho.
    { unfold occurs_at. rewrite Hocc, Ha.
      now rewrite !StrFacts.app_assoc_s. }
    apply Hmin in Ho. apply (f_equal String.length) in Ha.
    repeat rewrite StrFacts.length_app in Ha.
    rewrite StrFacts.length_app in Ho.
    change (String.length marker) with 11 in Ha. lia.
  - apply MoreParseFacts.startswith_app.
Qed.

Lemma problem_text_without_marker_witness :
  startswith marker
    (snd (marker_split (no_problem, csv_header)
            "Visit Target Name twice. Target Name,Distance")) = true.
Proof.
  apply (problem_text_without_marker (no_problem, csv_header)
           "Visit Target Name twice. Target Name,Distance" eq_refl).
Defined.

(** X9.  A completion that [get_openai_response] returns is trimmed:
    trimming it again changes nothing.  The call has logged its prompt and
    has left the output and the files as they were. *)
Theorem completions_are_trimmed
    (G : Type) (complete : G -> string -> G * option string)
    (prompt : string) (w w' : world G) (response : string) :
  get_openai_response complete prompt w = (w', Ok response) ->
  strip response = response /\
  requests w' = (requests w ++ [ prompt ])%list /\
  stdout w' = stdout w /\ written w' = written w.
Proof.
  unfold get_openai_response.
  destruct (complete (gateway w) prompt) as [g [content|]]; [|discriminate].
  intros H. injection H as <- <-. cbn [requests stdout written].
  repeat split. apply MoreParseFacts.strip_idem.
Qed.

Lemma completions_are_trimmed_witness :
  strip "Score: 42" = "Score: 42".
Proof.
  apply (completions_are_trimmed _ scripted "How good is it?"
           (fresh [ Some "  Score: 42 " ] nil)
           (mk_world nil nil [ "How good is it?" ] nil nil) "Score: 42"
           eq_refl).
Defined.

(** ** More facts about runs *)

Module MoreRunFacts.

Import Str Notions MoreNotions StrFacts RunFacts SessionFacts.

Section MoreRuns.

Context {G : Type} (complete : G -> string -> G * option string)
    (os : G -> os_call -> G * bool).

Lemma revise_outcome (score : N) (problem_text csv_data smp feedback : string)
    (w : world G) :
  startswith marker csv_data = true ->
  (exists texts w',
     revise complete score problem_text csv_data smp feedback w =
       (w', Ok texts) /\
     startswith marker (snd texts) = true /\ written w' = written w) \/
  (exists w',
     revise complete score problem_text csv_data smp feedback w =
       (w', Raise GatewayFailure) /\
     written w' = written w).
Proof.
  intros Hcsv. destruct (N.lt_ge_cases score 70) as [Hs | Hs].
  - destruct (complete (gateway w)
                (fix_prompt score problem_text smp feedback))
      as [g [revision|]] eqn:Hc.
    + left. rewrite (revise_low_ok complete _ _ _ _ _ w g revision Hs Hc).
      eexists _, _. split; [reflexivity|]. split; [|reflexivity].
      now apply (MoreParseFacts.marker_split_table (problem_text, csv_data)).
    + right. unfold revise. apply N.ltb_lt in Hs. rewrite Hs.
      unfold bind at 1. unfold print at 1.
      erewrite bind_raise by (apply get_openai_response_raise; exact Hc).
      eexists. split; reflexivity.
  - left. rewrite (revise_high complete _ _ _ _ _ w Hs).
    eexists _, _. split; [reflexivity|]. now split.
Qed.

(** A run of [create_fake_gtoc] ends normally, having written its three
    files; or on a failed completion call, having written none; or on a
    refused file operation, having written the files that come before it. *)
Lemma create_fake_gtoc_outcome (n : N) (w : world G) :
  (exists problem_text csv_data feedback w',
     create_fake_gtoc complete os n w = (w', Ok tt) /\
     written w' = (written w ++ outputs n problem_text csv_data feedback)%list /\
     startswith marker csv_data = true) \/
  (exists w',
     create_fake_gtoc complete os n w = (w', Raise GatewayFailure) /\
     written w' = written w) \/
  (exists problem_text csv_data feedback k w',
     create_fake_gtoc complete os n w = (w', Raise OSError) /\
     k < 3 /\
     written w' =
       (written w ++
        firstn k (outputs n problem_text csv_data feedback))%list /\
     startswith marker csv_data = true).
Proof.
  destruct (complete (gateway w) (draft_prompt n (sample w)))
    as [g1 [draft|]] eqn:H1.
  - set (texts := marker_split (no_problem, csv_header) (strip draft)).
    assert (startswith marker (snd texts) = true) as Htexts
      by (apply MoreParseFacts.marker_split_table; reflexivity).
    destruct (complete g1 (xai_prompt (fst texts) (sample w)))
      as [g2 [critique|]] eqn:H2.
    + rewrite (create_fake_gtoc_critique complete os n w g1 g2 draft critique
                 H1 H2).
      fold texts.
      match goal with
      | |- context [bind ?c ?k ?w2] =>
          destruct (revise_outcome (extract_score (strip critique))
                      (fst texts) (snd texts) (sample w) (strip critique)
                      w2 Htexts)
            as [[final [w3 [Hr [Hf Hw]]]] | [w3 [Hr Hw]]]
      end.
      * rewrite (bind_ok _ _ _ _ _ Hr).
        destruct (save_outputs_outcome os n (fst final) (snd final)
                    (strip critique) w3)
          as [w' [[-> Hw'] | [-> [k [Hk Hw']]]]].
        -- left. exists (fst final), (snd final), (strip critique), w'.
           split; [reflexivity|]. rewrite Hw', Hw. now split.
        -- right. right.
           exists (fst final), (snd final), (strip critique), k, w'.
           split; [reflexivity|]. rewrite Hw', Hw. now repeat split.
      * right. left. rewrite (bind_raise _ _ _ _ _ Hr). exists w3. now split.
    + right. left. unfold create_fake_gtoc.
      unfold bind at 1. unfold listdir_base at 1. fold (sample w).
      rewrite (bind_ok _ _ _ _ _ (get_openai_response_ok complete w _ g1 draft H1)).
      cbv zeta. fold texts. unfold get_xai_feedback.
      rewrite (bind_raise _ _ (asked w g1 _) _ _
                 (get_openai_response_raise complete (asked w g1 _) _ g2 H2)).
      eexists. split; reflexivity.
  - right. left. unfold create_fake_gtoc.
    unfold bind at 1. unfold listdir_base at 1. fold (sample w).
    rewrite (bind_raise _ _ _ _ _ (get_openai_response_raise complete w _ g1 H1)).
    eexists. split; reflexivity.
Qed.

Lemma perform_requests (b : branch) (w : world G) :
  List.length (requests (fst (perform complete os b w))) <=
  List.length (requests w) + 3.
Proof.
  destruct b as [n | n | prompt]; simpl.
  - destruct (create_fake_gtoc_requests complete os n w) as [extra [-> Hx]].
    rewrite List.length_app. simpl. lia.
  - lia.
  - unfold bind, get_openai_response.
    destruct (complete (gateway w) prompt) as [g [content|]]; simpl;
      rewrite List.length_app; simpl; lia.
Qed.

Lemma perform_written (b : branch) (w : world G) :
  (forall n, b <> Generate n) ->
  written (fst (perform complete os b w)) = written w.
Proof.
  intros Hb. destruct b as [n | n | prompt]; simpl.
  - now destruct (Hb n).
  - reflexivity.
  - unfold bind, get_openai_response.
    now destruct (complete (gateway w) prompt) as [g [content|]].
Qed.


(** A turn fails on a completion call or on a file operation only. *)
Lemma perform_outcome (b : branch) (w : world G) :
  snd (perform complete os b w) = Ok tt \/
  snd (perform complete os b w) = Raise GatewayFailure \/
  snd (perform complete os b w) = Raise OSError.
Proof.
  destruct b as [n | n | prompt].
  - simpl. destruct (create_fake_gtoc_outcome n w)
      as [[pt [csv [fb [w' [-> _]]]]]
         | [[w' [-> _]]
           | [pt [csv [fb [k [w' [-> _]]]]]]]]; cbn [snd]; auto.
  - left. reflexivity.
  - simpl. unfold bind, get_openai_response.
    destruct (complete (gateway w) prompt) as [g [content|]]; cbn [snd]; auto.
Qed.

Lemma chat_loop_nil (gtoc_data : CorpusIndex) (w : world G) :
  chat_loop complete os gtoc_data nil w = (prompted w, Raise EOFError).
Proof. reflexivity. Qed.

Lemma chat_loop_cons (gtoc_data : CorpusIndex) (user_input : string)
    (rest : list string) (w : world G) :
  chat_loop complete os gtoc_data (user_input :: rest) w =
  if is_exit user_input then (prompted w, Ok tt)
  else bind (perform complete os (route gtoc_data user_input))
            (fun _ => chat_loop complete os gtoc_data rest) (prompted w).
Proof.
  cbn [chat_loop]. unfold bind at 1. unfold print at 1. unfold is_exit.
  now destruct (String.eqb (lower user_input) "exit").
Qed.

Lemma start_chatbot_greets (gtoc_data : CorpusIndex) (lines : list string)
    (w : world G) :
  start_chatbot complete os gtoc_data lines w =
  chat_loop complete os gtoc_data lines (greeted w).
Proof. reflexivity. Qed.


End MoreRuns.

End MoreRunFacts.

(** ** Synthesis and the session *)



(** X11.  The session ends at the first line that reads [exit] in any
    letter case: what follows it in the input has no effect. *)
Theorem input_after_exit_is_ignored
    (G : Type) (complete : G -> string -> G * option string)
    (os : G -> os_call -> G * bool)
    (gtoc_data : CorpusIndex) (before : list string) (line : string)
    (after : list string) (w : world G) :
  is_exit line = true ->
  start_chatbot complete os gtoc_data (before ++ line :: after)%list w =
  start_chatbot complete os gtoc_data (before ++ [ line ])%list w.
Proof.
  intros He. rewrite !MoreRunFacts.start_chatbot_greets.
  generalize (greeted w).
  induction before as [|x before IH]; intros w0; simpl app.
  - rewrite !MoreRunFacts.chat_loop_cons. now rewrite He.
  - rewrite !MoreRunFacts.chat_loop_cons. destruct (is_exit x); [reflexivity|].
    unfold bind.
    destruct (perform complete os (route gtoc_data x) (prompted w0))
      as [w1 [[]|e]]; [apply IH | reflexivity].
Qed.

Lemma input_after_exit_is_ignored_witness :
  start_chatbot scripted obliging index5
    [ "create gtoc5"; "Exit"; "create gtoc9" ]%list (fresh nil nil) =
  start_chatbot scripted obliging index5
    [ "create gtoc5"; "Exit" ]%list (fresh nil nil).
Proof.
  apply (input_after_exit_is_ignored _ scripted obliging index5
           [ "create gtoc5" ]%list "Exit" [ "create gtoc9" ]%list
           (fresh nil nil) eq_refl).
Defined.

(** X12.  A session ends normally only at a line that reads [exit], and
    with the end-of-input error only when no line of its input reads
    [exit]. *)
Theorem session_end_and_exit_line
    (G : Type) (complete : G -> string -> G * option string)
    (os : G -> os_call -> G * bool)
    (gtoc_data : CorpusIndex) (lines : list string) (w : world G) :
  let run := start_chatbot complete os gtoc_data lines w in
  (snd run = Ok tt -> existsb is_exit lines = true) /\
  (snd run = Raise EOFError -> existsb is_exit lines = false).
Proof.
  cbv zeta. rewrite MoreRunFacts.start_chatbot_greets.
  generalize (greeted w).
  induction lines as [|line rest IH]; intros w0.
  - rewrite MoreRunFacts.chat_loop_nil. cbn [snd existsb].
    split; [discriminate | reflexivity].
  - rewrite MoreRunFacts.chat_loop_cons. cbn [existsb].
    destruct (is_exit line); cbn [orb snd];
      [split; [reflexivity | discriminate]|].
    unfold bind.
    pose proof (MoreRunFacts.perform_outcome complete os
                  (route gtoc_data line) (prompted w0)) as Hp.
    destruct (perform complete os (route gtoc_data line) (prompted w0))
      as [w1 [[]|e]]; [apply IH|]. cbn [snd] in Hp |- *.
    destruct Hp as [Hp | [Hp | Hp]]; try discriminate;
      injection Hp as ->; split; discriminate.
Qed.

Lemma session_end_and_exit_line_witness :
  existsb is_exit [ "who won gtoc5?"; "EXIT"; "make gtoc 12" ]%list = true /\
  existsb is_exit [ "make gtoc 12"; "who won gtoc5?" ]%list = false.
Proof.
  split.
  - apply (proj1 (session_end_and_exit_line unit (always "Score: 90")
                    obliging index5
                    [ "who won gtoc5?"; "EXIT"; "make gtoc 12" ]%list
                    (mk_world tt nil nil nil nil))).
    reflexivity.
  - apply (proj2 (session_end_and_exit_line unit (always "Score: 90")
                    obliging index5
                    [ "make gtoc 12"; "who won gtoc5?" ]%list
                    (mk_world tt nil nil nil nil))).
    reflexivity.
Defined.

(** X13.  A session sends at most three completion requests for each line
    of input it is given. *)
Theorem session_requests_bounded
    (G : Type) (complete : G -> string -> G * option string)
    (os : G -> os_call -> G * bool)
    (gtoc_data : CorpusIndex) (lines : list string) (w : world G) :
  List.length (requests (fst (start_chatbot complete os gtoc_data lines w))) <=
  List.length (requests w) + 3 * List.length lines.
Proof.
  rewrite MoreRunFacts.start_chatbot_greets.
  change (requests w) with (requests (greeted w)).
  generalize (greeted w).
  induction lines as [|line rest IH]; intros w0.
  - simpl. lia.
  - rewrite MoreRunFacts.chat_loop_cons. cbn [List.length].
    destruct (is_exit line); [simpl; lia|]. unfold bind.
    pose proof (MoreRunFacts.perform_requests complete os (route gtoc_data line)
                  (prompted w0)) as Hp.
    destruct (perform complete os (route gtoc_data line) (prompted w0))
      as [w1 [[]|e]]; cbn [fst] in Hp |- *.
    + specialize (IH w1). simpl in Hp. lia.
    + simpl in Hp. lia.
Qed.

(** X14.  Files are written by generation turns only: a session none of
    whose lines is routed to a generation leaves the files as they were. *)
Theorem answers_write_nothing
    (G : Type) (complete : G -> string -> G * option string)
    (os : G -> os_call -> G * bool)
    (gtoc_data : CorpusIndex) (lines : list string) (w : world G) :
  (forall line n, In line lines -> route gtoc_data line <> Generate n) ->
  written (fst (start_chatbot complete os gtoc_data lines w)) = written w.
Proof.
  intros Hr. rewrite MoreRunFacts.start_chatbot_greets.
  change (written w) with (written (greeted w)).
  generalize (greeted w).
  induction lines as [|line rest IH]; intros w0.
  - reflexivity.
  - rewrite MoreRunFacts.chat_loop_cons.
    destruct (is_exit line); [reflexivity|]. unfold bind.
    pose proof (MoreRunFacts.perform_written complete os (route gtoc_data line)
                  (prompted w0)
                  (fun n => Hr line n (or_introl eq_refl))) as Hp.
    destruct (perform complete os (route gtoc_data line) (prompted w0))
      as [w1 [[]|e]]; cbn [fst] in Hp |- *.
    + rewrite IH; [exact Hp|]. intros l n Hin. apply Hr. now right.
    + exact Hp.
Qed.

Lemma answers_write_nothing_witness :
  written
    (fst (start_chatbot (always "It was won by a team.") obliging index5
            [ "who won gtoc5?"; "create gtoc5"; "exit" ]%list
            (mk_world tt nil nil nil nil))) = nil.
Proof.
  apply (answers_write_nothing unit (always "It was won by a team.") obliging index5
           [ "who won gtoc5?"; "create gtoc5"; "exit" ]%list
           (mk_world tt nil nil nil nil)).
  intros line n [<- | [<- | [<- | []]]]; discriminate.
Defined.



(** ** The size of the prompts *)

Module PromptFacts.

Import Notions MoreNotions StrFacts DictFacts IndexFacts.

(** The length of a constant text is computed. *)
Ltac const_lengths :=
  repeat match goal with
    | |- context [String.length ?c] =>
        is_const c;
        let v := eval compute in (String.length c) in
        change (String.length c) with v
    | H : context [String.length ?c] |- _ =>
        is_const c;
        let v := eval compute in (String.length c) in
        change (String.length c) with v in H
    end.

(** Lengths of literal texts are computed; lengths of truncated texts are
    replaced by their bounds. *)
Ltac sizes :=
  repeat rewrite length_app;
  repeat match goal with
    | |- context [String.length (Str.take ?n ?s)] =>
        let t := fresh "t" in
        let E := fresh "E" in
        pose proof (length_take_le n s);
        remember (String.length (Str.take n s)) as t eqn:E; clear E
    end;
  const_lengths; cbn [String.length]; lia.

Lemma length_map (f : ascii -> ascii) (s : string) :
  String.length (Str.map f s) = String.length s.
Proof. induction s as [|c s IH]; simpl; [reflexivity | now rewrite IH]. Qed.

Lemma length_upper (s : string) : String.length (Str.upper s) = String.length s.
Proof. apply length_map. Qed.

Lemma small_numbers (n : N) :
  (n <= 99)%N -> In n (List.map N.of_nat (seq 0 100)).
Proof.
  intros H. rewrite <- (N2Nat.id n). apply in_map, in_seq. lia.
Qed.

Lemma length_of_N_small (n : N) :
  (n <= 99)%N -> String.length (Str.of_N n) <= 2.
Proof.
  intros H. apply small_numbers in H.
  assert (forallb (fun m => Nat.leb (String.length (Str.of_N m)) 2)
            (List.map N.of_nat (seq 0 100)) = true) as Hall
    by (vm_compute; reflexivity).
  rewrite forallb_forall in Hall. apply Nat.leb_le. now apply Hall.
Qed.

Lemma length_event_key (n : N) :
  (n <= 99)%N -> String.length (Str.upper (event_key n)) <= 6.
Proof.
  intros H. rewrite length_upper. unfold event_key. rewrite length_app.
  pose proof (length_of_N_small n H). cbn [String.length]. lia.
Qed.

Lemma parse_event_key (user_input k : string) :
  fst (parse_gtoc_request user_input) = Some k ->
  exists n, (n <= 99)%N /\ k = event_key n.
Proof.
  unfold parse_gtoc_request.
  destruct (Re.search gtoc_pat (Str.lower user_input)) as [g|];
    [|discriminate].
  destruct (99 <? Str.int (group1 g))%N eqn:Hn; cbn [fst]; [discriminate|].
  intros H; injection H as <-. apply N.ltb_ge in Hn.
  now exists (Str.int (group1 g)).
Qed.

(** The shape of a placement map built by the loader. *)
Definition ranked (pm : PlacementMap) : Prop :=
  NoDup (Dict.keys pm) /\ incl (Dict.keys pm) rank_keys.

Lemma loader_ranked (base : tree) (k : string) (pm : PlacementMap) :
  Dict.get k (load_gtoc_pdfs_by_placement base) = Some pm -> ranked pm.
Proof.
  intros H. apply fold_index_origin in H as [H | [top [_ [_ [_ ->]]]]];
    [discriminate|].
  split.
  - apply nodup_fold_placement. constructor.
  - apply MoreIndexFacts.keys_fold_placement. intros x [].
Qed.

Lemma length_rank (place : string) :
  In place rank_keys -> String.length place <= 5.
Proof.
  unfold rank_keys. simpl.
  intros [<- | [<- | [<- | [<- | []]]]]; cbn [String.length]; lia.
Qed.

Lemma length_combined (pm : PlacementMap) :
  ranked pm -> String.length (combined_of pm) <= 4 * 813 + 3 * 2.
Proof.
  intros [Hnd Hincl]. unfold combined_of.
  assert (List.length pm <= 4) as Hlen.
  { pose proof (NoDup_incl_length Hnd Hincl) as Hl.
    unfold Dict.keys in Hl. now rewrite List.length_map in Hl. }
  match goal with
  | |- String.length (join ?sep ?items) <= _ =>
      assert (Forall (fun x => String.length x <= 813) items) as Hall;
      [| pose proof (MoreStrFacts.length_join_le sep 813 items Hall) as Hj;
         rewrite List.length_map in Hj;
         rewrite length_app in Hj; const_lengths; lia ]
  end.
  apply Forall_forall. intros x Hx.
  apply in_map_iff in Hx as [[place txt] [<- Hin]].
  assert (In place rank_keys) as Hp
    by (apply Hincl; unfold Dict.keys; apply in_map_iff;
        now exists (place, txt)).
  rewrite length_app, length_upper.
  pose proof (length_rank place Hp). sizes.
Qed.

End PromptFacts.

(** X16.  For an index built by the loader, the prompt of the answering
    path is never more than 3300 characters longer than the line the user
    typed, whatever the size of the corpus: a text enters it by at most 2000
    characters, the ranks of one event by at most 800 each, and the whole index
    by at most 3000. *)
Theorem answer_prompt_bounded (base_folder : tree) (user_input : string) :
  String.length
    (answer_prompt (load_gtoc_pdfs_by_placement base_folder) user_input) <=
  3300 + String.length user_input.
Proof.
  unfold answer_prompt.
  destruct (parse_gtoc_request user_input) as [gtoc_key placement_key] eqn:E.
  destruct gtoc_key as [k|]; cbn [truthy].
  - assert (fst (parse_gtoc_request user_input) = Some k) as Hk
      by (now rewrite E).
    apply PromptFacts.parse_event_key in Hk as [n [Hn ->]].
    pose proof (PromptFacts.length_event_key n Hn) as Hkey.
    change (nonempty (event_key n)) with true. cbv iota.
    destruct (Dict.get (event_key n) (load_gtoc_pdfs_by_placement base_folder))
      as [[|e pm]|] eqn:Eg.
    + PromptFacts.sizes.
    + pose proof (PromptFacts.loader_ranked _ _ _ Eg) as Hranked.
      destruct (truthy placement_key) as [p|] eqn:Ep.
      * assert (In p [ "1st"; "2nd"; "3rd" ]%list) as Hp.
        { apply (MoreParseFacts.placement_key_canonical user_input).
          assert (snd (parse_gtoc_request user_input) = placement_key) as Hs
            by (now rewrite E).
          unfold parse_gtoc_request in Hs.
          destruct (Re.search gtoc_pat (lower user_input)) as [g|] in Hs.
          - destruct (99 <? int (group1 g))%N in Hs; cbn [snd] in Hs.
            + subst placement_key. discriminate.
            + rewrite Hs. destruct placement_key as [q|]; [|discriminate].
              simpl in Ep. destruct (nonempty q); [|discriminate].
              now injection Ep as ->.
          - cbn [snd] in Hs. rewrite Hs.
            destruct placement_key as [q|]; [|discriminate].
            simpl in Ep. destruct (nonempty q); [|discriminate].
            now injection Ep as ->. }
        assert (String.length p = 3) as Hlp
          by (simpl in Hp; destruct Hp as [<- | [<- | [<- | []]]];
              reflexivity).
        destruct (truthy (Dict.get p (e :: pm))) as [content|].
        -- PromptFacts.sizes.
        -- PromptFacts.sizes.
      * pose proof (PromptFacts.length_combined _ Hranked).
        PromptFacts.sizes.
    + PromptFacts.sizes.
  - unfold global_prompt, global_context. PromptFacts.sizes.
Qed.

(** ** What the three files hold *)




